(** * Compilation memory statistics (HotSpot, compilationMemoryStatistic.cpp)

    A shallow embedding of the arena peak tracker ([ArenaStatCounter]), the
    per-method record ([MemStatEntry]), the registry ([MemStatTable]) and the
    report ([CompilationMemoryStatistic::print_all_by_size]), followed by the
    properties established about them. *)

From stdpp Require Import gmap list fin_maps pretty strings sorting.
From Stdlib Require Import ZArith Lia.

Open Scope Z_scope.

(** ** Machine integers

    [size_t] and [ssize_t] are 64 bits wide and [int] and [unsigned] 32 bits
    wide on the platforms HotSpot targets.  Values are kept as [Z]; every
    arithmetic result is brought back into range by one of the functions
    below, which is where the wrap-around of the C++ operators lives. *)

Module Machine.

Definition SIZE_MAX : Z := 2 ^ 64 - 1.
Definition SSIZE_MAX : Z := 2 ^ 63 - 1.
Definition SSIZE_MIN : Z := - 2 ^ 63.
Definition INT_MAX : Z := 2 ^ 31 - 1.
Definition INT_MIN : Z := - 2 ^ 31.

(** Conversion to [size_t]: reduction modulo 2^64. *)
Definition to_size_t (z : Z) : Z := z mod 2 ^ 64.

(** Conversion to [ssize_t]: the two's complement reading of the low 64 bits. *)
Definition to_ssize_t (z : Z) : Z := (z + 2 ^ 63) mod 2 ^ 64 - 2 ^ 63.

(** Conversion to [int]: the two's complement reading of the low 32 bits. *)
Definition to_int (z : Z) : Z := (z + 2 ^ 31) mod 2 ^ 32 - 2 ^ 31.

Definition is_size_t (z : Z) : Prop := 0 <= z <= SIZE_MAX.
Definition is_ssize_t (z : Z) : Prop := SSIZE_MIN <= z <= SSIZE_MAX.
Definition is_unsigned (z : Z) : Prop := 0 <= z < 2 ^ 32.

End Machine.

Import Machine.

(** ** Collaborator types *)

(** Modelled from the spec: [Arena::Tag] is declared in memory/arena.hpp,
    which is not part of the sources.  The tracker distinguishes the
    node-structure category ([tag_node]) and the resource-scratch category
    ([tag_ra]); every other tag falls into the [default] branch of the
    [switch] in [account]. *)
Inductive ArenaTag : Type :=
  | tag_other
  | tag_ra
  | tag_ha
  | tag_node.

(** Modelled from the spec: [CompilerType] is declared in
    compiler/compilerDefinitions.hpp, which is not part of the sources.  This
    file names [compiler_c1] (the initial value of a record) and [compiler_c2]
    (the backend that exposes the live node count). *)
Inductive CompilerType : Type :=
  | compiler_none
  | compiler_c1
  | compiler_c2
  | compiler_jvmci.

#[global] Instance CompilerType_eq_dec : EqDecision CompilerType.
Proof. solve_decision. Defined.

(** What [update_c2_node_count] reads from outside the tracker:
    whether the build has [COMPILER2]; the task of the current compiler
    thread ([None] for [nullptr]) with the type of its compiler ([None] when
    [compiler()] is [nullptr]); and [Compile::current()] ([None] for
    [nullptr]) with its [live_nodes()]. *)
Record CompilerEnv : Type := mkCompilerEnv {
  COMPILER2 : bool;
  task_compiler : option (option CompilerType);
  compile_current : option Z
}.

(** The backend compiling in this environment, when there is one. *)
Definition active_backend (env : CompilerEnv) : option CompilerType :=
  match task_compiler env with
  | Some (Some ct) => Some ct
  | _ => None
  end.

(** ** ArenaStatCounter *)

Record ArenaStatCounter : Type := mkArenaStatCounter {
  _current : Z;
  _start : Z;
  _peak : Z;
  _na : Z;
  _ra : Z;
  _na_at_peak : Z;
  _ra_at_peak : Z;
  _live_nodes_at_peak : Z
}.

(** The constructor. *)
Definition ArenaStatCounter_new : ArenaStatCounter :=
  {| _current := 0; _start := 0; _peak := 0;
     _na := 0; _ra := 0;
     _na_at_peak := 0; _ra_at_peak := 0; _live_nodes_at_peak := 0 |}.

Definition peak_since_start (s : ArenaStatCounter) : Z :=
  if _peak s >? _start s then _peak s - _start s else 0.

(** [_peak = _start = _current]. *)
Definition start (s : ArenaStatCounter) : ArenaStatCounter :=
  {| _current := _current s; _start := _current s; _peak := _current s;
     _na := _na s; _ra := _ra s;
     _na_at_peak := _na_at_peak s; _ra_at_peak := _ra_at_peak s;
     _live_nodes_at_peak := _live_nodes_at_peak s |}.

(** The node count [update_c2_node_count] leaves in [_live_nodes_at_peak],
    given the one it finds there. *)
Definition c2_node_count (env : CompilerEnv) (old : Z) : Z :=
  if COMPILER2 env then
    match task_compiler env with
    | Some (Some compiler_c2) =>
        match compile_current env with
        | Some live_nodes => live_nodes
        | None => old
        end
    | _ => old
    end
  else old.

Definition update_c2_node_count (env : CompilerEnv) (s : ArenaStatCounter)
  : ArenaStatCounter :=
  {| _current := _current s; _start := _start s; _peak := _peak s;
     _na := _na s; _ra := _ra s;
     _na_at_peak := _na_at_peak s; _ra_at_peak := _ra_at_peak s;
     _live_nodes_at_peak := c2_node_count env (_live_nodes_at_peak s) |}.

(** The two statements "Update totals" and "Update detail counter" of
    [account]: unsigned additions of the signed [delta]. *)
Definition account_totals (s : ArenaStatCounter) (delta : Z) (tag : ArenaTag)
  : ArenaStatCounter :=
  {| _current := to_size_t (_current s + delta);
     _start := _start s; _peak := _peak s;
     _na := match tag with tag_node => to_size_t (_na s + delta) | _ => _na s end;
     _ra := match tag with tag_ra => to_size_t (_ra s + delta) | _ => _ra s end;
     _na_at_peak := _na_at_peak s; _ra_at_peak := _ra_at_peak s;
     _live_nodes_at_peak := _live_nodes_at_peak s |}.

(** The body of the branch "Did we reach a peak?". *)
Definition account_new_peak (env : CompilerEnv) (s : ArenaStatCounter)
  : ArenaStatCounter :=
  update_c2_node_count env
    {| _current := _current s; _start := _start s; _peak := _current s;
       _na := _na s; _ra := _ra s;
       _na_at_peak := _na s; _ra_at_peak := _ra s;
       _live_nodes_at_peak := _live_nodes_at_peak s |}.

(** [account] as compiled without [ASSERT]: the new state and the returned
    flag. *)
Definition account (env : CompilerEnv) (s : ArenaStatCounter)
    (delta : Z) (tag : ArenaTag) : ArenaStatCounter * bool :=
  let s1 := account_totals s delta tag in
  if _current s1 >? _peak s1 then (account_new_peak env s1, true)
  else (s1, false).

(** The two assertions of [account], by their messages. *)
Inductive AssertFailure : Type :=
  | Negative_overflow
  | Sanity.

(** The condition of the first assertion:
    [delta >= 0 || ((ssize_t)_current + delta) >= 0].  The cast reads the
    unsigned total as a two's complement number, and the signed addition is
    taken with the wrap-around of the machine. *)
Definition no_negative_overflow (s : ArenaStatCounter) (delta : Z) : bool :=
  (delta >=? 0) || (to_ssize_t (to_ssize_t (_current s) + delta) >=? 0).

(** [account] as compiled with [ASSERT]: a failed assertion stops the VM. *)
Definition account_debug (env : CompilerEnv) (s : ArenaStatCounter)
    (delta : Z) (tag : ArenaTag) : AssertFailure + ArenaStatCounter * bool :=
  if no_negative_overflow s delta then
    let s1 := account_totals s delta tag in
    if _current s1 >? _peak s1 then
      if delta >? 0 then inr (account_new_peak env s1, true)
      else inl Sanity
    else inr (s1, false)
  else inl Negative_overflow.

(** One call of [account] with what it reads from outside. *)
Record AccountCall : Type := mkAccountCall {
  ac_delta : Z;
  ac_tag : ArenaTag;
  ac_env : CompilerEnv
}.

Definition account_call (s : ArenaStatCounter) (c : AccountCall) : ArenaStatCounter :=
  fst (account (ac_env c) s (ac_delta c) (ac_tag c)).

(** A sequence of [account] calls, in order. *)
Definition run_accounts (s : ArenaStatCounter) (cs : list AccountCall)
  : ArenaStatCounter :=
  fold_left account_call cs s.

(** The same sequence in an [ASSERT] build. *)
Fixpoint run_accounts_debug (s : ArenaStatCounter) (cs : list AccountCall)
  : AssertFailure + ArenaStatCounter :=
  match cs with
  | [] => inr s
  | c :: cs' =>
      match account_debug (ac_env c) s (ac_delta c) (ac_tag c) with
      | inl f => inl f
      | inr (s', _) => run_accounts_debug s' cs'
      end
  end.

(** Any interleaving of [start] and [account]. *)
Inductive TrackerOp : Type :=
  | op_start
  | op_account (c : AccountCall).

Definition tracker_step (s : ArenaStatCounter) (o : TrackerOp) : ArenaStatCounter :=
  match o with
  | op_start => start s
  | op_account c => account_call s c
  end.

Definition run_ops (s : ArenaStatCounter) (os : list TrackerOp) : ArenaStatCounter :=
  fold_left tracker_step os s.

(** The invariants of the tracker. *)
Definition tracker_inv (s : ArenaStatCounter) : Prop :=
  _peak s >= _current s /\ _peak s >= _start s.

(** The running total as the mathematical sum of the deltas of a window that
    begins at [c], and the two bounds on it: never negative at any prefix;
    never above [SSIZE_MAX] at any prefix. *)
Fixpoint never_negative (c : Z) (ds : list Z) : bool :=
  match ds with
  | [] => true
  | d :: ds' => (0 <=? c + d) && never_negative (c + d) ds'
  end.

Fixpoint never_above_ssize_max (c : Z) (ds : list Z) : bool :=
  match ds with
  | [] => true
  | d :: ds' => (c + d <=? SSIZE_MAX) && never_above_ssize_max (c + d) ds'
  end.

(** ** FullMethodName *)

(** A [Symbol*] is kept as the address it holds; the naming subsystem that
    owns the symbols is a collaborator and [make_permanent] changes nothing
    that this file reads. *)
Abbreviation SymbolPtr := N (only parsing).

Record FullMethodName : Type := mkFullMethodName {
  _k : SymbolPtr;
  _m : SymbolPtr;
  _s : SymbolPtr
}.

Module FullMethodName_ops.

(** [equals], which is also [operator==]: pointer equality, field by field. *)
Definition equals (a b : FullMethodName) : bool :=
  (_k a =? _k b)%N && (_m a =? _m b)%N && (_s a =? _s b)%N.

Definition to_tuple (n : FullMethodName) : N * N * N := (_k n, _m n, _s n).
Definition of_tuple (p : N * N * N) : FullMethodName :=
  let '(k, m, s) := p in mkFullMethodName k m s.

End FullMethodName_ops.

#[global] Instance FullMethodName_eq_dec : EqDecision FullMethodName.
Proof. solve_decision. Defined.

#[global] Instance FullMethodName_countable : Countable FullMethodName.
Proof.
  apply (inj_countable' FullMethodName_ops.to_tuple FullMethodName_ops.of_tuple).
  intros []; reflexivity.
Defined.

(** ** MemStatEntry *)

(** A [double] is only stored and printed here, never computed with: it is
    kept as its 64-bit pattern. A [Thread*] is kept as an address, [0] for
    [nullptr]. *)
Abbreviation double := Z (only parsing).
Abbreviation ThreadPtr := N (only parsing).

Module MemStatEntry.

Record t : Type := mk {
  _method : FullMethodName;
  _comptype : CompilerType;
  _time : double;
  _num_recomp : Z;
  _thread : ThreadPtr;
  _total : Z;
  _na_at_peak : Z;
  _ra_at_peak : Z;
  _live_nodes_at_peak : Z
}.

(** The constructor [MemStatEntry(FullMethodName method)]. *)
Definition new (method : FullMethodName) : t :=
  {| _method := method; _comptype := compiler_c1;
     _time := 0; _num_recomp := 0; _thread := 0%N;
     _total := 0; _na_at_peak := 0; _ra_at_peak := 0; _live_nodes_at_peak := 0 |}.

Definition set_comptype (comptype : CompilerType) (e : t) : t :=
  mk (_method e) comptype (_time e) (_num_recomp e) (_thread e)
     (_total e) (_na_at_peak e) (_ra_at_peak e) (_live_nodes_at_peak e).

(** [_time = os::elapsedTime()], the clock reading passed in. *)
Definition set_current_time (elapsedTime : double) (e : t) : t :=
  mk (_method e) (_comptype e) elapsedTime (_num_recomp e) (_thread e)
     (_total e) (_na_at_peak e) (_ra_at_peak e) (_live_nodes_at_peak e).

(** [_thread = Thread::current()], the calling thread passed in. *)
Definition set_current_thread (current : ThreadPtr) (e : t) : t :=
  mk (_method e) (_comptype e) (_time e) (_num_recomp e) current
     (_total e) (_na_at_peak e) (_ra_at_peak e) (_live_nodes_at_peak e).

(** [_num_recomp++] on an [int]. *)
Definition inc_recompilation (e : t) : t :=
  mk (_method e) (_comptype e) (_time e) (to_int (_num_recomp e + 1)) (_thread e)
     (_total e) (_na_at_peak e) (_ra_at_peak e) (_live_nodes_at_peak e).

Definition set_total (n : Z) (e : t) : t :=
  mk (_method e) (_comptype e) (_time e) (_num_recomp e) (_thread e)
     n (_na_at_peak e) (_ra_at_peak e) (_live_nodes_at_peak e).

Definition set_na_at_peak (n : Z) (e : t) : t :=
  mk (_method e) (_comptype e) (_time e) (_num_recomp e) (_thread e)
     (_total e) n (_ra_at_peak e) (_live_nodes_at_peak e).

Definition set_ra_at_peak (n : Z) (e : t) : t :=
  mk (_method e) (_comptype e) (_time e) (_num_recomp e) (_thread e)
     (_total e) (_na_at_peak e) n (_live_nodes_at_peak e).

Definition set_live_nodes_at_peak (n : Z) (e : t) : t :=
  mk (_method e) (_comptype e) (_time e) (_num_recomp e) (_thread e)
     (_total e) (_na_at_peak e) (_ra_at_peak e) n.

Definition total (e : t) : Z := _total e.

(** [this->compare_by_size(b)]: negative when [this] is the larger one. *)
Definition compare_by_size (this b : t) : Z :=
  let x1 := _total b in
  let x2 := _total this in
  if x1 <? x2 then -1 else if x1 =? x2 then 0 else 1.

Definition equals (e : t) (b : FullMethodName) : bool :=
  FullMethodName_ops.equals (_method e) b.

End MemStatEntry.

#[global] Instance MemStatEntry_eq_dec : EqDecision MemStatEntry.t.
Proof. solve_decision. Defined.

(** ** Output *)

(** The stream receives whole lines.  A line of text is kept as its text; the
    row [MemStatEntry::print_on] renders for a record is kept as the record
    and the size mode, and the trace line of [on_end_compilation] as the
    values it renders: their column formatting relies on number formats and
    stream functions that are outside this file. *)
Inductive OutLine : Type :=
  | TextLine (s : string)
  | EntryLine (e : MemStatEntry.t) (human_readable : bool)
  | ArenaUsageLine (ct : CompilerType) (fmn : FullMethodName)
      (total na_at_peak ra_at_peak : Z).

Definition print_legend : list OutLine :=
  [ TextLine "Legend:";
    TextLine "  total  : memory allocated via arenas while compiling";
    TextLine "  NA     : ...how much in node arenas (if c2)";
    TextLine "  RA     : ...how much in resource areas";
    TextLine "  #nodes : ...how many nodes (if c2)";
    TextLine "  time   : time of last compilation (sec)";
    TextLine "  type   : compiler type";
    TextLine "  #rc    : how often recompiled";
    TextLine "  thread : compiler thread" ].

Definition print_header : list OutLine :=
  [ TextLine "total     NA        RA        #nodes  time    type  #rc thread              method" ].

Definition is_entry_line (l : OutLine) : bool :=
  match l with EntryLine _ _ => true | _ => false end.

(** The records of the rows of an output, in the order printed. *)
Definition printed_entries (out : list OutLine) : list MemStatEntry.t :=
  omap (fun l => match l with EntryLine e _ => Some e | _ => None end) out.

(** ** MemStatTable *)

(** Modelled from the spec: [ResourceHashtable] (utilities/resourceHash.hpp)
    is not part of the sources.  The registry is a mapping from method
    identity to the record it owns, with at most one record per identity:
    [get] is the lookup, [put] the insertion, [number_of_entries] the number
    of keys, and [iterate_all] visits every record once, in no particular
    order. *)
Abbreviation MemStatTable := (gmap FullMethodName MemStatEntry.t) (only parsing).

(** The table hands out its count as an [int]. *)
Definition number_of_entries (t : MemStatTable) : Z := Z.of_nat (size t).

Definition iterate_all (t : MemStatTable) : list MemStatEntry.t :=
  snd <$> map_to_list t.

(** The arguments of one call of [MemStatTable::add], with the clock and the
    calling thread it reads. *)
Record AddCall : Type := mkAddCall {
  add_fmn : FullMethodName;
  add_comptype : CompilerType;
  add_total : Z;
  add_na_at_peak : Z;
  add_ra_at_peak : Z;
  add_live_nodes_at_peak : Z;
  add_elapsedTime : double;
  add_thread : ThreadPtr
}.

(** The arguments are of the types the signature gives them. *)
Definition AddCall_typed (c : AddCall) : Prop :=
  is_size_t (add_total c) /\ is_size_t (add_na_at_peak c) /\
  is_size_t (add_ra_at_peak c) /\ is_unsigned (add_live_nodes_at_peak c).

Definition add (t : MemStatTable) (c : AddCall) : MemStatTable :=
  let e :=
    match t !! add_fmn c with
    | None => MemStatEntry.new (add_fmn c)
    | Some e => e
    end in
  let e := MemStatEntry.set_current_time (add_elapsedTime c) e in
  let e := MemStatEntry.set_current_thread (add_thread c) e in
  let e := MemStatEntry.set_comptype (add_comptype c) e in
  let e := MemStatEntry.inc_recompilation e in
  let e := MemStatEntry.set_total (add_total c) e in
  let e := MemStatEntry.set_na_at_peak (add_na_at_peak c) e in
  let e := MemStatEntry.set_ra_at_peak (add_ra_at_peak c) e in
  let e := MemStatEntry.set_live_nodes_at_peak (add_live_nodes_at_peak c) e in
  <[add_fmn c := e]> t.

(** A sequence of [add] calls, in order. *)
Definition run_adds (t : MemStatTable) (cs : list AddCall) : MemStatTable :=
  fold_left add cs t.

(** The calls of a sequence that name the identity [fmn]. *)
Definition calls_for (fmn : FullMethodName) (cs : list AddCall) : list AddCall :=
  filter (fun c => add_fmn c = fmn) cs.

(** Every record of the registry is filed under its own identity. *)
Definition table_wf (t : MemStatTable) : Prop :=
  forall k e, t !! k = Some e -> MemStatEntry._method e = k.

(** The closure [do_f] of [calc_flat_array], on the array and the index it
    captures.  The index counts the slots written and stays at most
    [num_all] (see [fold_do_f]), so [i ++] is a plain increment. *)
Definition do_f (min_size : Z) (st : list (option MemStatEntry.t) * Z)
    (e : MemStatEntry.t) : list (option MemStatEntry.t) * Z :=
  let '(flat, i) := st in
  if MemStatEntry.total e >=? min_size then (<[Z.to_nat i := Some e]> flat, i + 1)
  else (flat, i).

(** [calc_flat_array]: the array of [num_all] slots, [None] in a slot never
    written, and [num]. *)
Definition calc_flat_array (t : MemStatTable) (min_size : Z)
  : list (option MemStatEntry.t) * Z :=
  let num_all := number_of_entries t in
  let flat := replicate (Z.to_nat num_all) None in
  fold_left (do_f min_size) (iterate_all t) (flat, 0).

(** The records in the first [num] slots of the array. *)
Definition flat_prefix (flat : list (option MemStatEntry.t)) (num : Z)
  : list MemStatEntry.t :=
  omap id (take (Z.to_nat num) flat).

(** The snapshot as the report uses it. *)
Definition snapshot (t : MemStatTable) (min_size : Z) : list MemStatEntry.t :=
  let '(flat, num) := calc_flat_array t min_size in flat_prefix flat num.

(** ** CompilationMemoryStatistic *)

(** The two statics: [_enabled] and [_the_table] ([None] for [nullptr]). *)
Record Statistic : Type := mkStatistic {
  _enabled : bool;
  _the_table : option MemStatTable
}.

(** The state at program start. *)
Definition Statistic_init : Statistic :=
  {| _enabled := false; _the_table := None |}.

Definition enabled (g : Statistic) : bool := _enabled g.

(** [initialize]: a new, empty table, and the flag set. *)
Definition initialize (g : Statistic) : Statistic :=
  {| _enabled := true; _the_table := Some ∅ |}.

Definition on_start_compilation (arena_stat : ArenaStatCounter) : ArenaStatCounter :=
  start arena_stat.

Definition on_arena_change (arena_stat : ArenaStatCounter) (c : AccountCall)
  : ArenaStatCounter :=
  account_call arena_stat c.

(** What [on_end_compilation] reads from the thread, its task and the
    directive. *)
Record EndEnv : Type := mkEndEnv {
  end_ct : CompilerType;
  end_method : FullMethodName;
  end_should_print_memstat : bool;
  end_elapsedTime : double;
  end_thread : ThreadPtr
}.

Definition end_add_call (env : EndEnv) (arena_stat : ArenaStatCounter) : AddCall :=
  {| add_fmn := end_method env;
     add_comptype := end_ct env;
     add_total := peak_since_start arena_stat;
     add_na_at_peak := _na_at_peak arena_stat;
     add_ra_at_peak := _ra_at_peak arena_stat;
     add_live_nodes_at_peak := _live_nodes_at_peak arena_stat;
     add_elapsedTime := end_elapsedTime env;
     add_thread := end_thread env |}.

(** [on_end_compilation]: the lines written to [tty] and the new statics;
    [None] when there is no table to add to. *)
Definition on_end_compilation (env : EndEnv) (arena_stat : ArenaStatCounter)
    (g : Statistic) : option (list OutLine * Statistic) :=
  let tty :=
    if end_should_print_memstat env then
      [ ArenaUsageLine (end_ct env) (end_method env)
          (peak_since_start arena_stat) (_na_at_peak arena_stat)
          (_ra_at_peak arena_stat) ]
    else [] in
  match _the_table g with
  | Some t =>
      Some (tty, {| _enabled := _enabled g;
                    _the_table := Some (add t (end_add_call env arena_stat)) |})
  | None => None
  end.

(** One compilation that collects statistics, as
    [CompilationMemoryStatisticMark] brackets it: [on_start_compilation],
    the arena changes of the compilation, [on_end_compilation]. *)
Record Compilation : Type := mkCompilation {
  comp_changes : list AccountCall;
  comp_end : EndEnv
}.

Definition compilation_arena_stat (arena_stat : ArenaStatCounter) (c : Compilation)
  : ArenaStatCounter :=
  fold_left on_arena_change (comp_changes c) (on_start_compilation arena_stat).

Definition compile (arena_stat : ArenaStatCounter) (g : Statistic) (c : Compilation)
  : option (ArenaStatCounter * Statistic) :=
  let arena_stat' := compilation_arena_stat arena_stat c in
  match on_end_compilation (comp_end c) arena_stat' g with
  | Some (_, g') => Some (arena_stat', g')
  | None => None
  end.

(** The backend is [ct] during the whole compilation. *)
Definition compiled_by (ct : CompilerType) (c : Compilation) : Prop :=
  end_ct (comp_end c) = ct /\
  Forall (fun a => active_backend (ac_env a) = Some ct) (comp_changes c).

Definition diff_entries_by_size (e1 e2 : MemStatEntry.t) : Z :=
  MemStatEntry.compare_by_size e1 e2.

Section Report.

(** Modelled from the spec: [QuickSort::sort] (utilities/quickSort.hpp) is
    not part of the sources; it is a parameter here.  It receives the
    comparator and the first [num] slots of the array. *)
Variable QuickSort_sort :
  (MemStatEntry.t -> MemStatEntry.t -> Z) -> list MemStatEntry.t -> list MemStatEntry.t.

Definition print_table (t : MemStatTable) (human_readable : bool) (min_size : Z)
  : list OutLine :=
  let '(filtered, num) := calc_flat_array t min_size in
  (if min_size >? 0 then
     [ TextLine ("(" +:+ pretty num +:+ "/" +:+ pretty (number_of_entries t) +:+ ")") ]
   else []) ++
  (if num >? 0 then
     let sorted := QuickSort_sort diff_entries_by_size (flat_prefix filtered num) in
     (fun e => EntryLine e human_readable) <$> sorted
   else [ TextLine "No entries." ]).

Definition print_all_by_size (g : Statistic) (human_readable : bool) (min_size : Z)
  : list OutLine :=
  [ TextLine "Compilation memory statistics" ] ++
  if negb (enabled g) then [ TextLine "(unavailable)" ]
  else
    [ TextLine "" ] ++
    print_legend ++
    [ TextLine "" ] ++
    (if min_size >? 0 then
       [ TextLine (" (cutoff: " +:+ pretty min_size +:+ " bytes)") ]
     else []) ++
    [ TextLine "" ] ++
    print_header ++
    match _the_table g with
    | Some t => print_table t human_readable min_size
    | None => [ TextLine "Not initialized." ]
    end.

End Report.

(** What the report needs of the sorting routine: the result is a
    rearrangement of the input and, for a comparator that is a total
    preorder, no element is followed by one that the comparator puts
    before it. *)
Definition comparator_total_preorder {A} (c : A -> A -> Z) : Prop :=
  (forall a b, c a b <= 0 \/ c b a <= 0) /\
  (forall a b d, c a b <= 0 -> c b d <= 0 -> c a d <= 0).

Definition sorts
    (sort : (MemStatEntry.t -> MemStatEntry.t -> Z) ->
            list MemStatEntry.t -> list MemStatEntry.t) : Prop :=
  (forall c l, sort c l ≡ₚ l) /\
  (forall c l, comparator_total_preorder c ->
     StronglySorted (fun a b => c a b <= 0) (sort c l)).

(** A sorting routine to run the report with: insertion into a sorted list. *)
Fixpoint insert_sorted {A} (c : A -> A -> Z) (x : A) (l : list A) : list A :=
  match l with
  | [] => [x]
  | y :: l' => if c x y <=? 0 then x :: y :: l' else y :: insert_sorted c x l'
  end.

Definition insertion_sort {A} (c : A -> A -> Z) (l : list A) : list A :=
  foldr (insert_sorted c) [] l.

(** ** Further definitions used by the properties below *)

#[global] Instance ArenaTag_eq_dec : EqDecision ArenaTag.
Proof. solve_decision. Defined.

(** The fields of the tracker that are [size_t] hold values of that type. *)
Definition tracker_typed (s : ArenaStatCounter) : Prop :=
  is_size_t (_current s) /\ is_size_t (_start s) /\ is_size_t (_peak s) /\
  is_size_t (_na s) /\ is_size_t (_ra s) /\
  is_size_t (_na_at_peak s) /\ is_size_t (_ra_at_peak s).

(** The sum of all deltas of a sequence of calls, and of those with one tag. *)
Definition sum_deltas (cs : list AccountCall) : Z :=
  foldr Z.add 0 (ac_delta <$> cs).

Definition sum_deltas_tagged (tag : ArenaTag) (cs : list AccountCall) : Z :=
  sum_deltas (filter (fun c => ac_tag c = tag) cs).

(** The running total that starts at [c] stays a value of [size_t] at every
    prefix of the deltas. *)
Fixpoint totals_fit_size_t (c : Z) (ds : list Z) : bool :=
  match ds with
  | [] => true
  | d :: ds' => (0 <=? c + d) && (c + d <=? SIZE_MAX) && totals_fit_size_t (c + d) ds'
  end.

(** The largest value the running total that starts at [c] takes at any
    prefix of the deltas, the empty prefix included. *)
Fixpoint running_max (c : Z) (ds : list Z) : Z :=
  match ds with
  | [] => c
  | d :: ds' => Z.max c (running_max (c + d) ds')
  end.

(** The state right after the last call of the sequence that returned
    [true]; [p] when none did. *)
Fixpoint peak_event_from (p s : ArenaStatCounter) (cs : list AccountCall)
  : ArenaStatCounter :=
  match cs with
  | [] => p
  | c :: cs' =>
      let r := account (ac_env c) s (ac_delta c) (ac_tag c) in
      peak_event_from (if snd r then fst r else p) (fst r) cs'
  end.

Definition peak_event (s : ArenaStatCounter) (cs : list AccountCall) : ArenaStatCounter :=
  peak_event_from s s cs.

Section Hash.

(** Modelled from the spec: [Symbol::compute_hash] (oops/symbol.hpp) is not
    part of the sources; it is a parameter here, an [unsigned] for each
    symbol. *)
Variable Symbol_compute_hash : SymbolPtr -> Z.

(** [FullMethodName::compute_hash]: the exclusive-or of the three hashes. *)
Definition compute_hash (n : FullMethodName) : Z :=
  Z.lxor (Z.lxor (Symbol_compute_hash (_k n)) (Symbol_compute_hash (_m n)))
         (Symbol_compute_hash (_s n)).

End Hash.

(** A sequence of [on_end_compilation] calls, each with what it reads and
    the tracker of its thread; [None] as soon as one of them finds no
    table. *)
Fixpoint end_compilations (g : Statistic) (l : list (EndEnv * ArenaStatCounter))
  : option Statistic :=
  match l with
  | [] => Some g
  | (env, arena_stat) :: l' =>
      match on_end_compilation env arena_stat g with
      | Some (_, g') => end_compilations g' l'
      | None => None
      end
  end.

(** * Properties *)

(** ** Machine integers *)

Lemma to_size_t_range z : is_size_t (to_size_t z).
Proof.
  unfold is_size_t, to_size_t, SIZE_MAX.
  pose proof (Z.mod_pos_bound z (2 ^ 64) ltac:(lia)). lia.
Qed.

Lemma to_size_t_id z : is_size_t z -> to_size_t z = z.
Proof.
  unfold is_size_t, to_size_t, SIZE_MAX. intros Hz.
  apply Z.mod_small. lia.
Qed.

Lemma to_ssize_t_id z : is_ssize_t z -> to_ssize_t z = z.
Proof.
  unfold is_ssize_t, to_ssize_t, SSIZE_MIN, SSIZE_MAX. intros Hz.
  rewrite Z.mod_small; lia.
Qed.

Lemma to_int_id z : INT_MIN <= z <= INT_MAX -> to_int z = z.
Proof.
  unfold to_int, INT_MIN, INT_MAX. intros Hz.
  rewrite Z.mod_small; lia.
Qed.

(** Incrementing a wrapped value and wrapping again is wrapping the
    increment. *)
Lemma to_int_succ z : to_int (to_int z + 1) = to_int (z + 1).
Proof.
  unfold to_int.
  replace ((z + 2 ^ 31) mod 2 ^ 32 - 2 ^ 31 + 1 + 2 ^ 31)
    with ((z + 2 ^ 31) mod 2 ^ 32 + 1) by lia.
  replace (z + 1 + 2 ^ 31) with ((z + 2 ^ 31) + 1) by lia.
  rewrite (Z.add_mod (z + 2 ^ 31) 1) by lia.
  rewrite (Z.add_mod ((z + 2 ^ 31) mod 2 ^ 32) 1) by lia.
  rewrite Z.mod_mod by lia. reflexivity.
Qed.

(** ** ArenaStatCounter: how one call of [account] moves the fields *)

Section AccountStep.

Variables (env : CompilerEnv) (s : ArenaStatCounter) (delta : Z) (tag : ArenaTag).

Let r := account env s delta tag.

Lemma account_current : _current (fst r) = to_size_t (_current s + delta).
Proof. unfold r, account. destruct (_ >? _); reflexivity. Qed.

Lemma account_start : _start (fst r) = _start s.
Proof. unfold r, account. destruct (_ >? _); reflexivity. Qed.

Lemma account_peak :
  _peak (fst r) = Z.max (_peak s) (to_size_t (_current s + delta)).
Proof.
  unfold r, account. cbn [account_totals _current _peak].
  destruct (_ >? _) eqn:E; cbn; lia.
Qed.

Lemma account_flag :
  snd r = (to_size_t (_current s + delta) >? _peak s).
Proof. unfold r, account. cbn. destruct (_ >? _); reflexivity. Qed.

Lemma account_na :
  _na (fst r) = match tag with tag_node => to_size_t (_na s + delta) | _ => _na s end.
Proof. unfold r, account. destruct (_ >? _); reflexivity. Qed.

Lemma account_ra :
  _ra (fst r) = match tag with tag_ra => to_size_t (_ra s + delta) | _ => _ra s end.
Proof. unfold r, account. destruct (_ >? _); reflexivity. Qed.

Lemma account_at_peak :
  if snd r
  then _na_at_peak (fst r) = _na (fst r) /\ _ra_at_peak (fst r) = _ra (fst r) /\
       _live_nodes_at_peak (fst r) = c2_node_count env (_live_nodes_at_peak s)
  else _na_at_peak (fst r) = _na_at_peak s /\ _ra_at_peak (fst r) = _ra_at_peak s /\
       _live_nodes_at_peak (fst r) = _live_nodes_at_peak s.
Proof. unfold r, account. destruct (_ >? _); cbn; auto. Qed.

End AccountStep.

Lemma run_accounts_app s cs1 cs2 :
  run_accounts s (cs1 ++ cs2) = run_accounts (run_accounts s cs1) cs2.
Proof. apply fold_left_app. Qed.

Lemma run_accounts_snoc s cs c :
  run_accounts s (cs ++ [c]) = account_call (run_accounts s cs) c.
Proof. rewrite run_accounts_app. reflexivity. Qed.

Lemma run_accounts_start s cs : _start (run_accounts s cs) = _start s.
Proof.
  revert s. induction cs as [|c cs IH]; intros s; [reflexivity|].
  cbn. unfold run_accounts in IH. rewrite IH. apply account_start.
Qed.

Lemma account_call_peak_le s c : _peak s <= _peak (account_call s c).
Proof. unfold account_call. rewrite account_peak. lia. Qed.

Lemma run_accounts_peak_le s cs : _peak s <= _peak (run_accounts s cs).
Proof.
  revert s. induction cs as [|c cs IH]; intros s; cbn; [lia|].
  etrans; [apply (account_call_peak_le s c)|]. apply IH.
Qed.

Lemma peak_since_start_nonneg s : 0 <= peak_since_start s.
Proof. unfold peak_since_start. destruct (Z.gtb_spec (_peak s) (_start s)); lia. Qed.

Lemma peak_since_start_mono s s' :
  _start s' = _start s -> _peak s <= _peak s' ->
  peak_since_start s <= peak_since_start s'.
Proof.
  unfold peak_since_start. intros -> Hp.
  destruct (Z.gtb_spec (_peak s) (_start s)), (Z.gtb_spec (_peak s') (_start s)); lia.
Qed.

Lemma tracker_inv_new : tracker_inv ArenaStatCounter_new.
Proof. unfold tracker_inv. cbn. lia. Qed.

Lemma tracker_inv_start s : tracker_inv (start s).
Proof. unfold tracker_inv. cbn. lia. Qed.

Lemma tracker_inv_account s c : tracker_inv s -> tracker_inv (account_call s c).
Proof.
  unfold tracker_inv, account_call. intros [_ Hs].
  rewrite account_peak, account_current, account_start. lia.
Qed.

Lemma tracker_inv_step s o : tracker_inv s -> tracker_inv (tracker_step s o).
Proof.
  destruct o; cbn; intros H; [apply tracker_inv_start | by apply tracker_inv_account].
Qed.

(** ** ArenaStatCounter: the claims *)

(** C1. On a fresh tracker, after [start], the calls [account(+1000, node)],
    [account(+500, resource)], [account(-300, node)], [account(+200, node)]
    leave [_peak = 1500], set by the second call (the first two calls return
    [true], the last two [false]); [peak_since_start] is [1500]; and the
    at-peak snapshots are [_na_at_peak = 1000] and [_ra_at_peak = 500], the
    category totals after the second call, while the node total itself has
    moved on to [900]. This holds whatever the environment of each call. *)
Theorem scenario_peak_1500 (e1 e2 e3 e4 : CompilerEnv) :
  let w := start ArenaStatCounter_new in
  let c1 := mkAccountCall 1000 tag_node e1 in
  let c2 := mkAccountCall 500 tag_ra e2 in
  let c3 := mkAccountCall (-300) tag_node e3 in
  let c4 := mkAccountCall 200 tag_node e4 in
  let s1 := run_accounts w [c1] in
  let s2 := run_accounts w [c1; c2] in
  let s3 := run_accounts w [c1; c2; c3] in
  let s4 := run_accounts w [c1; c2; c3; c4] in
  _current w = 0 /\
  snd (account e1 w 1000 tag_node) = true /\
  snd (account e2 s1 500 tag_ra) = true /\
  snd (account e3 s2 (-300) tag_node) = false /\
  snd (account e4 s3 200 tag_node) = false /\
  _peak s1 = 1000 /\ _peak s2 = 1500 /\ _na s2 = 1000 /\ _ra s2 = 500 /\
  _peak s4 = 1500 /\ peak_since_start s4 = 1500 /\
  _na_at_peak s4 = 1000 /\ _ra_at_peak s4 = 500 /\
  _current s4 = 1400 /\ _na s4 = 900 /\ _ra s4 = 500.
Proof. cbv zeta. vm_compute. repeat split; reflexivity. Qed.

(** C5. Within a window opened by [start], [peak_since_start] is at least
    zero after every call of [account], it never decreases from one prefix
    of the calls to a longer one, and a call whose updated running total
    does not exceed the peak leaves it unchanged. *)
Theorem peak_since_start_monotone (s0 : ArenaStatCounter) (cs1 cs2 : list AccountCall) :
  let w := start s0 in
  0 <= peak_since_start (run_accounts w cs1) /\
  peak_since_start (run_accounts w cs1) <= peak_since_start (run_accounts w (cs1 ++ cs2)) /\
  (forall c : AccountCall,
     _current (account_call (run_accounts w cs1) c) <= _peak (run_accounts w cs1) ->
     peak_since_start (account_call (run_accounts w cs1) c)
       = peak_since_start (run_accounts w cs1)).
Proof.
  intros w. split; [apply peak_since_start_nonneg|]. split.
  - rewrite run_accounts_app. apply peak_since_start_mono.
    + apply run_accounts_start.
    + apply run_accounts_peak_le.
  - intros c Hle. unfold account_call in *.
    rewrite account_current in Hle.
    unfold peak_since_start. rewrite account_peak, account_start.
    rewrite Z.max_l by lia. reflexivity.
Qed.

Lemma peak_since_start_monotone_witness :
  let w := start ArenaStatCounter_new in
  let e := mkCompilerEnv true (Some (Some compiler_c2)) (Some 7) in
  let cs1 := [mkAccountCall 1000 tag_node e; mkAccountCall 500 tag_ra e] in
  let c := mkAccountCall (-300) tag_node e in
  _current (account_call (run_accounts w cs1) c) <= _peak (run_accounts w cs1) /\
  peak_since_start (account_call (run_accounts w cs1) c)
    = peak_since_start (run_accounts w cs1).
Proof.
  intros w e cs1 c.
  assert (Hle : _current (account_call (run_accounts w cs1) c)
                  <= _peak (run_accounts w cs1)) by (vm_compute; discriminate).
  split; [exact Hle|].
  exact (proj2 (proj2 (peak_since_start_monotone ArenaStatCounter_new cs1 [])) c Hle).
Defined.

(** C6. From the constructed tracker, after any interleaving of [start] and
    [account] calls, [_peak >= _current] and [_peak >= _start]. No condition
    on the deltas is needed. *)
Theorem peak_bounds_current_and_start (os : list TrackerOp) :
  let s := run_ops ArenaStatCounter_new os in
  _peak s >= _current s /\ _peak s >= _start s.
Proof.
  cbv zeta. change (tracker_inv (run_ops ArenaStatCounter_new os)).
  generalize tracker_inv_new. generalize ArenaStatCounter_new.
  induction os as [|o os IH]; intros s Hs; [exact Hs|].
  cbn. apply IH. by apply tracker_inv_step.
Qed.

(** C10. [start] sets [_start] and [_peak] to the running total and leaves
    every other field as it was: the running total, the category totals, the
    at-peak category snapshots and the node count at peak. After it, a call
    of [account] that reaches no new peak still leaves the at-peak values of
    the earlier window in place; one that reaches a new peak overwrites the
    category snapshots. *)
Theorem start_frame (s : ArenaStatCounter) :
  _start (start s) = _current s /\ _peak (start s) = _current s /\
  _current (start s) = _current s /\
  _na (start s) = _na s /\ _ra (start s) = _ra s /\
  _na_at_peak (start s) = _na_at_peak s /\ _ra_at_peak (start s) = _ra_at_peak s /\
  _live_nodes_at_peak (start s) = _live_nodes_at_peak s /\
  (forall env delta tag,
     let r := account env (start s) delta tag in
     if snd r
     then _na_at_peak (fst r) = _na (fst r) /\ _ra_at_peak (fst r) = _ra (fst r)
     else _na_at_peak (fst r) = _na_at_peak s /\ _ra_at_peak (fst r) = _ra_at_peak s /\
          _live_nodes_at_peak (fst r) = _live_nodes_at_peak s).
Proof.
  repeat (split; [reflexivity|]).
  intros env delta tag r.
  pose proof (account_at_peak env (start s) delta tag) as H. fold r in H.
  destruct (snd r); cbn in H; tauto.
Qed.

(** ** ArenaStatCounter: the underflow assertion *)

(** One call in an [ASSERT] build, when the running total is a value of
    [ssize_t] before and after it: no assertion fails, the result is that of
    the build without assertions, and the addition does not wrap. *)
Lemma account_debug_ok env s delta tag :
  tracker_inv s ->
  0 <= _current s <= SSIZE_MAX ->
  0 <= _current s + delta <= SSIZE_MAX ->
  no_negative_overflow s delta = true /\
  account_debug env s delta tag = inr (account env s delta tag) /\
  _current (fst (account env s delta tag)) = _current s + delta.
Proof.
  unfold tracker_inv, SSIZE_MAX. intros [Hpc _] Hc Hcd.
  assert (Hchk : no_negative_overflow s delta = true).
  { unfold no_negative_overflow. apply orb_true_iff.
    destruct (Z.geb_spec delta 0) as [|Hneg]; [by left|right].
    rewrite (to_ssize_t_id (_current s)) by (unfold is_ssize_t, SSIZE_MIN, SSIZE_MAX; lia).
    rewrite to_ssize_t_id by (unfold is_ssize_t, SSIZE_MIN, SSIZE_MAX; lia).
    apply Z.geb_le. lia. }
  assert (Hcur : to_size_t (_current s + delta) = _current s + delta).
  { apply to_size_t_id. unfold is_size_t, SIZE_MAX. lia. }
  split; [exact Hchk|]. split.
  - unfold account_debug, account. rewrite Hchk.
    cbn [account_totals _current _peak]. rewrite Hcur.
    destruct (Z.gtb_spec (_current s + delta) (_peak s)) as [Hgt|]; [|reflexivity].
    destruct (Z.gtb_spec delta 0); [reflexivity|lia].
  - rewrite account_current. exact Hcur.
Qed.

Lemma run_accounts_debug_ok s cs :
  tracker_inv s ->
  0 <= _current s <= SSIZE_MAX ->
  never_negative (_current s) (ac_delta <$> cs) = true ->
  never_above_ssize_max (_current s) (ac_delta <$> cs) = true ->
  run_accounts_debug s cs = inr (run_accounts s cs) /\
  _current (run_accounts s cs) = _current s + foldr Z.add 0 (ac_delta <$> cs) /\
  0 <= _current (run_accounts s cs) <= SSIZE_MAX.
Proof.
  revert s. induction cs as [|c cs IH]; intros s Hinv Hc Hnn Hna.
  - cbn. split; [reflexivity|]. split; lia.
  - cbn in Hnn, Hna. apply andb_true_iff in Hnn as [Hn1 Hnn].
    apply andb_true_iff in Hna as [Ha1 Hna].
    apply Z.leb_le in Hn1, Ha1.
    destruct (account_debug_ok (ac_env c) s (ac_delta c) (ac_tag c) Hinv Hc
                ltac:(lia)) as (_ & Hdbg & Hcur).
    cbn [run_accounts_debug]. rewrite Hdbg.
    destruct (account (ac_env c) s (ac_delta c) (ac_tag c)) as [s' b] eqn:E.
    assert (Hs' : s' = account_call s c) by (unfold account_call; by rewrite E).
    cbn in Hcur. subst s'.
    destruct (IH (account_call s c)) as (IH1 & IH2 & IH3).
    + by apply tracker_inv_account.
    + lia.
    + by rewrite Hcur.
    + by rewrite Hcur.
    + split; [exact IH1|]. cbn. unfold run_accounts in IH2, IH3.
      rewrite IH2, Hcur. split; [lia|]. rewrite <- Hcur, <- IH2. exact IH3.
Qed.

Lemma never_negative_app c ds1 ds2 :
  never_negative c (ds1 ++ ds2) = true ->
  never_negative c ds1 = true /\
  never_negative (c + foldr Z.add 0 ds1) ds2 = true.
Proof.
  revert c. induction ds1 as [|d ds1 IH]; intros c H; cbn in *.
  - by rewrite Z.add_0_r.
  - apply andb_true_iff in H as [H1 H]. apply IH in H as [H2 H3].
    rewrite H1, H2. split; [done|]. by rewrite Z.add_assoc.
Qed.

Lemma never_above_ssize_max_app c ds1 ds2 :
  never_above_ssize_max c (ds1 ++ ds2) = true ->
  never_above_ssize_max c ds1 = true /\
  never_above_ssize_max (c + foldr Z.add 0 ds1) ds2 = true.
Proof.
  revert c. induction ds1 as [|d ds1 IH]; intros c H; cbn in *.
  - by rewrite Z.add_0_r.
  - apply andb_true_iff in H as [H1 H]. apply IH in H as [H2 H3].
    rewrite H1, H2. split; [done|]. by rewrite Z.add_assoc.
Qed.

Lemma run_accounts_inv s cs : tracker_inv s -> tracker_inv (run_accounts s cs).
Proof.
  revert s. induction cs as [|c cs IH]; intros s H; [exact H|].
  cbn. apply IH. by apply tracker_inv_account.
Qed.

(** C9, amended. In a window opened by [start] in which the running total,
    read as the mathematical sum of the deltas on top of its value at the
    start, is never negative and never above [SSIZE_MAX] at any prefix
    (the empty one included), no assertion of [account] fails: the [ASSERT]
    build runs through the whole window with the result of the build
    without assertions, the underflow check holds at every call, and the
    unsigned addition never wraps: the running total stays the
    mathematical sum. *)
Theorem underflow_check_never_fails (s0 : ArenaStatCounter) (cs : list AccountCall) :
  let w := start s0 in
  0 <= _current w <= SSIZE_MAX ->
  never_negative (_current w) (ac_delta <$> cs) = true ->
  never_above_ssize_max (_current w) (ac_delta <$> cs) = true ->
  run_accounts_debug w cs = inr (run_accounts w cs) /\
  _current (run_accounts w cs) = _current w + foldr Z.add 0 (ac_delta <$> cs) /\
  (forall cs1 c cs2, cs = cs1 ++ c :: cs2 ->
     no_negative_overflow (run_accounts w cs1) (ac_delta c) = true /\
     _current (account_call (run_accounts w cs1) c)
       = _current (run_accounts w cs1) + ac_delta c /\
     0 <= _current (run_accounts w cs1) + ac_delta c).
Proof.
  intros w Hc Hnn Hna.
  pose proof (tracker_inv_start s0) as Hinv. fold w in Hinv.
  destruct (run_accounts_debug_ok w cs Hinv Hc Hnn Hna) as (Hrun & Hsum & _).
  split; [exact Hrun|]. split; [exact Hsum|].
  intros cs1 c cs2 ->.
  rewrite fmap_app in Hnn, Hna.
  apply never_negative_app in Hnn as [Hnn1 Hnn2].
  apply never_above_ssize_max_app in Hna as [Hna1 Hna2].
  destruct (run_accounts_debug_ok w cs1 Hinv Hc Hnn1 Hna1) as (_ & Hcur1 & Hc1).
  rewrite <- Hcur1 in Hnn2, Hna2. cbn in Hnn2, Hna2.
  apply andb_true_iff in Hnn2 as [Hn _]. apply andb_true_iff in Hna2 as [Ha _].
  apply Z.leb_le in Hn, Ha.
  destruct (account_debug_ok (ac_env c) (run_accounts w cs1) (ac_delta c) (ac_tag c))
    as (Hchk & _ & Hcur); [by apply run_accounts_inv | exact Hc1 | lia |].
  split; [exact Hchk|]. split; [exact Hcur|lia].
Qed.

Lemma underflow_check_never_fails_witness :
  let e := mkCompilerEnv true (Some (Some compiler_c1)) None in
  let cs := [mkAccountCall 1000 tag_node e; mkAccountCall 500 tag_ra e;
             mkAccountCall (-300) tag_node e; mkAccountCall 200 tag_node e] in
  let w := start ArenaStatCounter_new in
  (0 <= _current w <= SSIZE_MAX /\
   never_negative (_current w) (ac_delta <$> cs) = true /\
   never_above_ssize_max (_current w) (ac_delta <$> cs) = true) /\
  run_accounts_debug w cs = inr (run_accounts w cs) /\
  _current (run_accounts w cs) = 1400.
Proof.
  intros e cs w.
  assert (H1 : 0 <= _current w <= SSIZE_MAX) by (vm_compute; split; discriminate).
  assert (H2 : never_negative (_current w) (ac_delta <$> cs) = true) by reflexivity.
  assert (H3 : never_above_ssize_max (_current w) (ac_delta <$> cs) = true) by reflexivity.
  split; [auto|].
  destruct (underflow_check_never_fails ArenaStatCounter_new cs H1 H2 H3) as (Hr & Hs & _).
  split; [exact Hr|]. subst w. rewrite Hs. reflexivity.
Defined.

(** C9 as stated fails: with deltas [SSIZE_MAX], [SSIZE_MAX], [-1] on a
    fresh window the running total is never negative at any prefix, yet at
    the third call the total is above [SSIZE_MAX], its cast to [ssize_t] is
    negative, and the underflow assertion fails. *)
Lemma underflow_check_fails_above_ssize_max :
  let e := mkCompilerEnv false None None in
  let cs := [mkAccountCall SSIZE_MAX tag_ra e; mkAccountCall SSIZE_MAX tag_ra e;
             mkAccountCall (-1) tag_ra e] in
  let w := start ArenaStatCounter_new in
  _current w = 0 /\
  never_negative (_current w) (ac_delta <$> cs) = true /\
  Forall is_ssize_t (ac_delta <$> cs) /\
  _current (run_accounts w (take 2 cs)) = 2 * SSIZE_MAX /\
  no_negative_overflow (run_accounts w (take 2 cs)) (-1) = false /\
  run_accounts_debug w cs = inl Negative_overflow.
Proof.
  cbv zeta. split; [reflexivity|]. split; [reflexivity|]. split.
  - repeat constructor; vm_compute; discriminate.
  - split; [reflexivity|]. split; reflexivity.
Qed.

(** ** The node count at peak across compilations *)

Lemma c2_node_count_other_backend env old :
  active_backend env <> Some compiler_c2 -> c2_node_count env old = old.
Proof.
  unfold active_backend, c2_node_count. intros H.
  destruct (COMPILER2 env); [|reflexivity].
  destruct (task_compiler env) as [[[]|]|]; try reflexivity.
  congruence.
Qed.

Lemma account_call_other_backend s c :
  active_backend (ac_env c) <> Some compiler_c2 ->
  _live_nodes_at_peak (account_call s c) = _live_nodes_at_peak s.
Proof.
  intros H. unfold account_call.
  pose proof (account_at_peak (ac_env c) s (ac_delta c) (ac_tag c)) as Hp.
  destruct (snd _); [|tauto].
  destruct Hp as (_ & _ & ->). by apply c2_node_count_other_backend.
Qed.

Lemma compilation_other_backend arena_stat c :
  Forall (fun a => active_backend (ac_env a) <> Some compiler_c2) (comp_changes c) ->
  _live_nodes_at_peak (compilation_arena_stat arena_stat c)
    = _live_nodes_at_peak arena_stat.
Proof.
  unfold compilation_arena_stat, on_start_compilation. intros H.
  change (_live_nodes_at_peak arena_stat) with (_live_nodes_at_peak (start arena_stat)).
  generalize (start arena_stat). induction H as [|x l Hx _ IH]; intros s; [reflexivity|].
  cbn. rewrite IH. by apply account_call_other_backend.
Qed.

Lemma add_lookup_same t c :
  exists e, add t c !! add_fmn c = Some e /\
    MemStatEntry._comptype e = add_comptype c /\
    MemStatEntry._total e = add_total c /\
    MemStatEntry._na_at_peak e = add_na_at_peak c /\
    MemStatEntry._ra_at_peak e = add_ra_at_peak c /\
    MemStatEntry._live_nodes_at_peak e = add_live_nodes_at_peak c /\
    MemStatEntry._time e = add_elapsedTime c /\
    MemStatEntry._thread e = add_thread c.
Proof.
  unfold add. eexists. split; [apply lookup_insert_eq|].
  cbn. repeat split; reflexivity.
Qed.

(** C7, amended. During a compilation whose backend is not C2 no call of
    [account] changes the node count at peak, and [start] does not reset
    it: the tracker ends with the node count it began with, and the record
    the compilation leaves in the registry carries that count. It is zero
    when the tracker held zero then, as a tracker that never served a C2
    compilation does. *)
Theorem node_count_kept_by_other_backend
    (arena_stat : ArenaStatCounter) (g : Statistic) (t : MemStatTable)
    (ct : CompilerType) (c : Compilation) :
  _the_table g = Some t ->
  ct <> compiler_c2 ->
  compiled_by ct c ->
  exists arena_stat' g' t' e,
    compile arena_stat g c = Some (arena_stat', g') /\
    _the_table g' = Some t' /\
    t' !! end_method (comp_end c) = Some e /\
    MemStatEntry._comptype e = ct /\
    _live_nodes_at_peak arena_stat' = _live_nodes_at_peak arena_stat /\
    MemStatEntry._live_nodes_at_peak e = _live_nodes_at_peak arena_stat /\
    (_live_nodes_at_peak arena_stat = 0 -> MemStatEntry._live_nodes_at_peak e = 0).
Proof.
  intros Ht Hct [Hend Hchanges].
  assert (Hkeep : _live_nodes_at_peak (compilation_arena_stat arena_stat c)
                  = _live_nodes_at_peak arena_stat).
  { apply compilation_other_backend.
    eapply Forall_impl; [exact Hchanges|]. cbn. intros a ->. congruence. }
  unfold compile, on_end_compilation. rewrite Ht.
  destruct (add_lookup_same t (end_add_call (comp_end c) (compilation_arena_stat arena_stat c)))
    as (e & He & Hty & _ & _ & _ & Hln & _).
  cbn in He, Hty, Hln.
  eexists _, _, _, e. split; [reflexivity|]. split; [reflexivity|].
  split; [exact He|]. split; [congruence|]. split; [exact Hkeep|].
  rewrite Hln, Hkeep. split; [reflexivity|]. auto.
Qed.

Lemma node_count_kept_by_other_backend_witness :
  let env := mkCompilerEnv true (Some (Some compiler_c1)) None in
  let c := {| comp_changes := [mkAccountCall 500 tag_ra env; mkAccountCall (-500) tag_ra env];
              comp_end := mkEndEnv compiler_c1 (mkFullMethodName 4 5 6) false 0 1 |} in
  let g := initialize Statistic_init in
  (_the_table g = Some ∅ /\ compiler_c1 <> compiler_c2 /\ compiled_by compiler_c1 c) /\
  exists arena_stat' g' t' e,
    compile ArenaStatCounter_new g c = Some (arena_stat', g') /\
    _the_table g' = Some t' /\
    t' !! end_method (comp_end c) = Some e /\
    MemStatEntry._comptype e = compiler_c1 /\
    _live_nodes_at_peak arena_stat' = _live_nodes_at_peak ArenaStatCounter_new /\
    MemStatEntry._live_nodes_at_peak e = _live_nodes_at_peak ArenaStatCounter_new /\
    (_live_nodes_at_peak ArenaStatCounter_new = 0 -> MemStatEntry._live_nodes_at_peak e = 0).
Proof.
  intros env c g.
  assert (H1 : _the_table g = Some ∅) by reflexivity.
  assert (H2 : compiler_c1 <> compiler_c2) by discriminate.
  assert (H3 : compiled_by compiler_c1 c).
  { split; [reflexivity|]. repeat constructor. }
  split; [auto|].
  exact (node_count_kept_by_other_backend ArenaStatCounter_new g ∅ compiler_c1 c H1 H2 H3).
Defined.

(** C7 as stated fails on a tracker that served a C2 compilation before: the
    C2 compilation of one method peaks with 1234 live nodes; the C1
    compilation of another method that follows on the same tracker is
    recorded with 1234 nodes, not zero. *)
Lemma stale_node_count_after_c2 :
  let envA := mkCompilerEnv true (Some (Some compiler_c2)) (Some 1234) in
  let envB := mkCompilerEnv true (Some (Some compiler_c1)) None in
  let mA := mkFullMethodName 1 2 3 in
  let mB := mkFullMethodName 4 5 6 in
  let compA := {| comp_changes := [mkAccountCall 1000 tag_node envA;
                                   mkAccountCall (-1000) tag_node envA];
                  comp_end := mkEndEnv compiler_c2 mA false 0 1 |} in
  let compB := {| comp_changes := [mkAccountCall 500 tag_ra envB;
                                   mkAccountCall (-500) tag_ra envB];
                  comp_end := mkEndEnv compiler_c1 mB false 0 1 |} in
  compiled_by compiler_c2 compA /\
  compiled_by compiler_c1 compB /\
  exists th1 g1 th2 g2 t2 e,
    compile ArenaStatCounter_new (initialize Statistic_init) compA = Some (th1, g1) /\
    compile th1 g1 compB = Some (th2, g2) /\
    _the_table g2 = Some t2 /\
    t2 !! mB = Some e /\
    MemStatEntry._comptype e = compiler_c1 /\
    MemStatEntry._total e = 500 /\
    MemStatEntry._live_nodes_at_peak e = 1234 /\
    MemStatEntry._live_nodes_at_peak e <> 0.
Proof.
  cbv zeta.
  split; [split; [reflexivity | repeat constructor]|].
  split; [split; [reflexivity | repeat constructor]|].
  do 6 eexists.
  split; [reflexivity|]. split; [reflexivity|]. split; [reflexivity|].
  split; [vm_compute; reflexivity|].
  cbn. repeat split; try reflexivity. discriminate.
Qed.

(** ** MemStatTable: [add] *)

Lemma add_lookup_ne t c k : k <> add_fmn c -> add t c !! k = t !! k.
Proof. intros H. unfold add. by rewrite lookup_insert_ne. Qed.

Lemma add_lookup_eq t c :
  add t c !! add_fmn c =
    Some (MemStatEntry.mk
            (MemStatEntry._method (default (MemStatEntry.new (add_fmn c)) (t !! add_fmn c)))
            (add_comptype c) (add_elapsedTime c)
            (to_int (MemStatEntry._num_recomp
                       (default (MemStatEntry.new (add_fmn c)) (t !! add_fmn c)) + 1))
            (add_thread c) (add_total c) (add_na_at_peak c) (add_ra_at_peak c)
            (add_live_nodes_at_peak c)).
Proof.
  unfold add. rewrite lookup_insert_eq.
  destruct (t !! add_fmn c); reflexivity.
Qed.

Lemma run_adds_snoc t cs c : run_adds t (cs ++ [c]) = add (run_adds t cs) c.
Proof. unfold run_adds. by rewrite fold_left_app. Qed.

Lemma calls_for_snoc fmn cs c :
  calls_for fmn (cs ++ [c]) =
    calls_for fmn cs ++ (if decide (add_fmn c = fmn) then [c] else []).
Proof.
  unfold calls_for. rewrite filter_app. f_equal.
Qed.

(** The record of an identity after a sequence of calls on the empty table:
    there is none when no call named the identity; otherwise it counts the
    calls that named it, in [int] arithmetic, and holds the arguments of the
    last of them. *)
Lemma run_adds_lookup cs fmn :
  match last (calls_for fmn cs) with
  | None => run_adds ∅ cs !! fmn = None
  | Some c =>
      exists e, run_adds ∅ cs !! fmn = Some e /\
        MemStatEntry._method e = fmn /\
        MemStatEntry._num_recomp e = to_int (Z.of_nat (length (calls_for fmn cs))) /\
        MemStatEntry._comptype e = add_comptype c /\
        MemStatEntry._total e = add_total c /\
        MemStatEntry._na_at_peak e = add_na_at_peak c /\
        MemStatEntry._ra_at_peak e = add_ra_at_peak c /\
        MemStatEntry._live_nodes_at_peak e = add_live_nodes_at_peak c /\
        MemStatEntry._time e = add_elapsedTime c /\
        MemStatEntry._thread e = add_thread c
  end.
Proof.
  induction cs as [|c cs IH] using rev_ind; [apply lookup_empty|].
  rewrite run_adds_snoc, calls_for_snoc.
  destruct (decide (add_fmn c = fmn)) as [Heq|Hne].
  - rewrite last_snoc. subst fmn. eexists. split; [apply add_lookup_eq|].
    cbn. rewrite length_app, Nat2Z.inj_add. cbn.
    destruct (last (calls_for (add_fmn c) cs)) as [c'|] eqn:El.
    + destruct IH as (e & -> & Hm & Hn & _). cbn. rewrite Hm, Hn, to_int_succ.
      repeat split; reflexivity.
    + rewrite IH. cbn. apply last_None in El. rewrite El. cbn.
      repeat split; reflexivity.
  - rewrite app_nil_r, add_lookup_ne by done. exact IH.
Qed.

Lemma run_adds_wf cs : table_wf (run_adds ∅ cs).
Proof.
  intros k e He. pose proof (run_adds_lookup cs k) as H.
  destruct (last (calls_for k cs)); [|congruence].
  destruct H as (e' & He' & Hm & _). congruence.
Qed.

Lemma run_adds_is_Some cs fmn :
  is_Some (run_adds ∅ cs !! fmn) <-> fmn ∈ add_fmn <$> cs.
Proof.
  pose proof (run_adds_lookup cs fmn) as H.
  destruct (last (calls_for fmn cs)) as [c|] eqn:El.
  - destruct H as (e & -> & _). split; [intros _|by eauto].
    assert (Hc : c ∈ calls_for fmn cs).
    { apply last_Some in El as [l' ->]. apply elem_of_app. right. by left. }
    apply list_elem_of_filter in Hc as [<- Hc]. by apply list_elem_of_fmap_2.
  - rewrite H. apply last_None in El. split; [by intros [? ?]|].
    intros (c & -> & Hc)%list_elem_of_fmap.
    assert (c ∈ calls_for (add_fmn c) cs) as Hin by (by apply list_elem_of_filter).
    rewrite El in Hin. by apply not_elem_of_nil in Hin.
Qed.

(** In a well-formed table the records that carry an identity are the one
    record filed under it, if any. *)
Lemma records_of_identity t fmn :
  table_wf t ->
  filter (fun e => MemStatEntry._method e = fmn) (iterate_all t)
    ≡ₚ option_list (t !! fmn).
Proof.
  unfold iterate_all. induction t as [|k x m Hk _ IH] using map_first_key_ind.
  - intros _. by rewrite map_to_list_empty, lookup_empty.
  - intros Hwf. rewrite map_to_list_insert by done. rewrite fmap_cons.
    cbn [snd].
    assert (Hx : MemStatEntry._method x = k) by (apply Hwf, lookup_insert_eq).
    assert (Hm : table_wf m).
    { intros k' e' He'. apply Hwf. rewrite lookup_insert_ne; [done|]. congruence. }
    rewrite filter_cons. destruct (decide (k = fmn)) as [->|Hne].
    + rewrite lookup_insert_eq, decide_True by done. cbn.
      rewrite (IH Hm), Hk. done.
    + rewrite lookup_insert_ne, decide_False by congruence. by apply IH.
Qed.

(** C2, amended. After any sequence of [add] calls on the empty table in
    which [N] calls name one identity, [1 <= N <= INT_MAX], the table holds
    exactly one record that carries the identity; its recompilation count
    is [N]; and its backend kind, total, at-peak category bytes and node
    count are the arguments of the last of these calls, whatever the earlier
    ones passed. ([N] consecutive calls with one identity are the case
    where the sequence holds nothing else.) *)
Theorem add_same_identity (cs : list AddCall) (fmn : FullMethodName) :
  let N := Z.of_nat (length (calls_for fmn cs)) in
  let t := run_adds ∅ cs in
  1 <= N <= INT_MAX ->
  exists c e,
    last (calls_for fmn cs) = Some c /\
    t !! fmn = Some e /\
    filter (fun e' => MemStatEntry._method e' = fmn) (iterate_all t) = [e] /\
    MemStatEntry._method e = fmn /\
    MemStatEntry._num_recomp e = N /\
    MemStatEntry._comptype e = add_comptype c /\
    MemStatEntry._total e = add_total c /\
    MemStatEntry._na_at_peak e = add_na_at_peak c /\
    MemStatEntry._ra_at_peak e = add_ra_at_peak c /\
    MemStatEntry._live_nodes_at_peak e = add_live_nodes_at_peak c.
Proof.
  intros N t HN. subst N t.
  pose proof (run_adds_lookup cs fmn) as H.
  destruct (last (calls_for fmn cs)) as [c|] eqn:El.
  - destruct H as (e & He & Hm & Hn & Hct & Htot & Hna & Hra & Hln & _).
    exists c, e. split; [reflexivity|]. split; [exact He|]. split.
    + apply Permutation_singleton_r.
      rewrite (records_of_identity _ fmn (run_adds_wf cs)).
      by rewrite He.
    + rewrite Hn. rewrite to_int_id by (unfold INT_MIN, INT_MAX in *; lia).
      auto 10.
  - apply last_None in El. rewrite El in HN. cbn in HN. lia.
Qed.

Lemma add_same_identity_witness :
  let idA := mkFullMethodName 1 2 3 in
  let idB := mkFullMethodName 1 2 4 in
  let cs := [mkAddCall idA compiler_c2 1500 1000 500 321 10 1;
             mkAddCall idB compiler_c1 700 0 700 0 11 2;
             mkAddCall idA compiler_c1 900 0 900 0 12 2] in
  1 <= Z.of_nat (length (calls_for idA cs)) <= INT_MAX /\
  exists e,
    run_adds ∅ cs !! idA = Some e /\
    filter (fun e' => MemStatEntry._method e' = idA) (iterate_all (run_adds ∅ cs)) = [e] /\
    MemStatEntry._num_recomp e = 2 /\
    MemStatEntry._comptype e = compiler_c1 /\
    MemStatEntry._total e = 900.
Proof.
  intros idA idB cs.
  assert (HN : 1 <= Z.of_nat (length (calls_for idA cs)) <= INT_MAX)
    by (vm_compute; split; discriminate).
  split; [exact HN|].
  destruct (add_same_identity cs idA HN)
    as (c & e & Hc & He & Hone & _ & Hn & Hct & Htot & _).
  exists e. vm_compute in Hc. injection Hc as <-.
  split; [exact He|]. split; [exact Hone|].
  split; [exact Hn|]. split; [exact Hct|exact Htot].
Defined.

Lemma calls_for_replicate n c :
  calls_for (add_fmn c) (replicate n c) = replicate n c.
Proof.
  unfold calls_for. induction n as [|n IH]; [reflexivity|].
  rewrite replicate_S, filter_cons, decide_True by done. by rewrite IH.
Qed.

Lemma last_replicate_S {A} n (x : A) : last (replicate (S n) x) = Some x.
Proof. induction n as [|n IH]; [reflexivity|]. exact IH. Qed.

(** The count of a record after [n] calls with one identity, [n] positive. *)
Lemma run_adds_replicate n c :
  (0 < n)%nat ->
  exists e, run_adds ∅ (replicate n c) !! add_fmn c = Some e /\
    MemStatEntry._num_recomp e = to_int (Z.of_nat n).
Proof.
  intros Hn. pose proof (run_adds_lookup (replicate n c) (add_fmn c)) as H.
  rewrite calls_for_replicate, length_replicate in H.
  destruct n as [|n]; [lia|]. rewrite last_replicate_S in H.
  destruct H as (e & He & _ & Hr & _). eauto.
Qed.

(** C2 as stated fails where the count leaves [int]: after [2^31] calls of
    [add] with one identity the record exists, but its recompilation count,
    an [int] incremented [2^31] times, is [INT_MIN] and not [2^31]. *)
Lemma recompile_count_wraps :
  let c := mkAddCall (mkFullMethodName 1 2 3) compiler_c2 1500 1000 500 321 10 1 in
  let N := 2 ^ 31 in
  exists e,
    run_adds ∅ (replicate (Z.to_nat N) c) !! add_fmn c = Some e /\
    Z.of_nat (length (replicate (Z.to_nat N) c)) = N /\
    MemStatEntry._num_recomp e = INT_MIN /\
    MemStatEntry._num_recomp e <> N.
Proof.
  intros c N.
  assert (Hpos : (0 < Z.to_nat N)%nat) by (subst N; lia).
  destruct (run_adds_replicate (Z.to_nat N) c Hpos) as (e & He & Hr).
  rewrite Z2Nat.id in Hr by (subst N; lia).
  exists e. split; [exact He|]. split.
  - rewrite length_replicate. apply Z2Nat.id. subst N. lia.
  - assert (Hmin : to_int N = INT_MIN) by (subst N; vm_compute; reflexivity).
    rewrite Hr, Hmin. split; [reflexivity|]. subst N. unfold INT_MIN. lia.
Qed.

(** ** MemStatTable: [calc_flat_array] *)

(** The loop of [calc_flat_array]: with [i] slots written so far and room
    for the records still to visit, every write lands inside the array, and
    the written slots grow by the qualifying records, in the order
    visited. *)
Lemma fold_do_f min_size l :
  forall flat i acc,
    0 <= i ->
    (Z.to_nat i + length l <= length flat)%nat ->
    take (Z.to_nat i) flat = Some <$> acc ->
    exists flat',
      fold_left (do_f min_size) l (flat, i)
        = (flat', i + Z.of_nat (length (filter (fun e => min_size <= MemStatEntry.total e) l))) /\
      length flat' = length flat /\
      take (Z.to_nat (i + Z.of_nat (length (filter (fun e => min_size <= MemStatEntry.total e) l))))
           flat'
        = Some <$> (acc ++ filter (fun e => min_size <= MemStatEntry.total e) l).
Proof.
  induction l as [|e l IH]; intros flat i acc Hi Hroom Hacc.
  - exists flat. cbn. rewrite Z.add_0_r, app_nil_r. auto.
  - cbn [fold_left do_f length] in *. rewrite filter_cons.
    destruct (Z.geb_spec (MemStatEntry.total e) min_size) as [Hq|Hq].
    + rewrite decide_True by lia.
      destruct (IH (<[Z.to_nat i := Some e]> flat) (i + 1) (acc ++ [e])) as (flat' & Hf & Hlen & Htk).
      * lia.
      * rewrite length_insert. lia.
      * replace (Z.to_nat (i + 1)) with (S (Z.to_nat i)) by lia.
        rewrite (take_S_r _ _ (Some e)) by (apply list_lookup_insert_eq; lia).
        rewrite take_insert_ge by lia. by rewrite Hacc, fmap_app.
      * exists flat'. rewrite length_insert in Hlen.
        cbn [length]. rewrite Nat2Z.inj_succ.
        replace (i + Z.succ (Z.of_nat (length (filter (fun e0 => min_size <= MemStatEntry.total e0) l))))
          with (i + 1 + Z.of_nat (length (filter (fun e0 => min_size <= MemStatEntry.total e0) l)))
          by lia.
        split; [exact Hf|]. split; [exact Hlen|].
        rewrite Htk. by rewrite <- app_assoc.
    + rewrite decide_False by lia.
      destruct (IH flat i acc) as (flat' & Hf & Hlen & Htk); [lia|lia|done|].
      exists flat'. auto.
Qed.

Lemma length_iterate_all (t : MemStatTable) : length (iterate_all t) = size t.
Proof. unfold iterate_all. by rewrite length_fmap, length_map_to_list. Qed.

Lemma calc_flat_array_spec (t : MemStatTable) (min_size : Z) :
  exists flat,
    calc_flat_array t min_size
      = (flat, Z.of_nat (length (filter (fun e => min_size <= MemStatEntry.total e)
                                         (iterate_all t)))) /\
    length flat = size t /\
    flat_prefix flat (Z.of_nat (length (filter (fun e => min_size <= MemStatEntry.total e)
                                                (iterate_all t))))
      = filter (fun e => min_size <= MemStatEntry.total e) (iterate_all t).
Proof.
  unfold calc_flat_array, number_of_entries.
  destruct (fold_do_f min_size (iterate_all t)
              (replicate (Z.to_nat (Z.of_nat (size t))) None) 0 [])
    as (flat & Hf & Hlen & Htk).
  - lia.
  - rewrite length_replicate, length_iterate_all. lia.
  - reflexivity.
  - exists flat. rewrite Z.add_0_l in Hf, Htk. cbn [app] in Htk.
    split; [exact Hf|]. split.
    + rewrite Hlen, length_replicate. lia.
    + unfold flat_prefix. rewrite Htk.
      generalize (filter (fun e => min_size <= MemStatEntry.total e) (iterate_all t)).
      induction l as [|x l IHl]; [reflexivity|]. cbn. by rewrite IHl.
Qed.

Lemma snapshot_filter (t : MemStatTable) (min_size : Z) :
  snapshot t min_size
    = filter (fun e => min_size <= MemStatEntry.total e) (iterate_all t).
Proof.
  unfold snapshot.
  destruct (calc_flat_array_spec t min_size) as (flat & -> & _ & H). exact H.
Qed.

Lemma elem_of_iterate_all (t : MemStatTable) e :
  e ∈ iterate_all t <-> exists k, t !! k = Some e.
Proof.
  unfold iterate_all. rewrite list_elem_of_fmap. split.
  - intros ([k e'] & -> & H). exists k. by apply elem_of_map_to_list.
  - intros [k H]. exists (k, e). split; [reflexivity|]. by apply elem_of_map_to_list.
Qed.

Lemma iterate_all_methods (t : MemStatTable) :
  table_wf t -> MemStatEntry._method <$> iterate_all t = (map_to_list t).*1.
Proof.
  intros Hwf. unfold iterate_all. rewrite <- list_fmap_compose.
  apply Forall_fmap_ext_1, Forall_forall. intros [k e] Hin. cbn.
  apply elem_of_map_to_list in Hin. by apply Hwf.
Qed.

Lemma filter_all {A} (P : A -> Prop) `{!forall x, Decision (P x)} (l : list A) :
  Forall P l -> filter P l = l.
Proof.
  induction 1 as [|x l Hx _ IH]; [reflexivity|].
  by rewrite filter_cons, decide_True, IH.
Qed.

(** The totals of the records are the totals passed to [add]. *)
Lemma run_adds_total_typed cs k e :
  Forall AddCall_typed cs -> run_adds ∅ cs !! k = Some e ->
  0 <= MemStatEntry.total e.
Proof.
  intros Hty He. pose proof (run_adds_lookup cs k) as H.
  destruct (last (calls_for k cs)) as [c|] eqn:El; [|congruence].
  destruct H as (e' & He' & _ & _ & _ & Htot & _).
  assert (e' = e) as -> by congruence.
  unfold MemStatEntry.total. rewrite Htot.
  apply last_Some in El as [l' El].
  assert (Hc : c ∈ cs).
  { assert (c ∈ calls_for k cs) as Hin by (rewrite El; apply elem_of_app; right; by left).
    by apply list_elem_of_filter in Hin as [_ ?]. }
  rewrite Forall_forall in Hty. destruct (Hty c Hc) as [[? _] _]. done.
Qed.

(** C4. [calc_flat_array] leaves in the first [num] slots of the array
    exactly the records whose total is at least [min_size], each once, and
    [num] never exceeds the number of slots; so the snapshot holds a record
    if and only if the table holds it and its total qualifies. With
    [min_size = 0], after any sequence of [add] calls on the empty table
    with arguments of their types, the snapshot holds every record, and the
    identities of its records are the identities passed to [add], each
    once. *)
Theorem calc_flat_array_exact (t : MemStatTable) (min_size : Z) :
  (exists flat num,
     calc_flat_array t min_size = (flat, num) /\
     length flat = size t /\
     0 <= num <= number_of_entries t /\
     take (Z.to_nat num) flat = Some <$> snapshot t min_size /\
     Z.of_nat (length (snapshot t min_size)) = num) /\
  snapshot t min_size
    ≡ₚ filter (fun e => min_size <= MemStatEntry.total e) (iterate_all t) /\
  (forall e, e ∈ snapshot t min_size <->
             (exists k, t !! k = Some e) /\ min_size <= MemStatEntry.total e) /\
  (forall cs : list AddCall,
     Forall AddCall_typed cs ->
     let t' := run_adds ∅ cs in
     snapshot t' 0 ≡ₚ iterate_all t' /\
     Z.of_nat (length (snapshot t' 0)) = number_of_entries t' /\
     NoDup (MemStatEntry._method <$> snapshot t' 0) /\
     (forall fmn, fmn ∈ MemStatEntry._method <$> snapshot t' 0 <->
                  fmn ∈ add_fmn <$> cs)).
Proof.
  split; [|split; [|split]].
  - destruct (fold_do_f min_size (iterate_all t)
                (replicate (Z.to_nat (number_of_entries t)) None) 0 [])
      as (flat & Hf & Hlen & Htk).
    + lia.
    + rewrite length_replicate, length_iterate_all. unfold number_of_entries. lia.
    + reflexivity.
    + rewrite Z.add_0_l in Hf, Htk. cbn [app] in Htk.
      eexists flat, _. split; [exact Hf|].
      rewrite snapshot_filter.
      split; [rewrite Hlen, length_replicate; unfold number_of_entries; lia|].
      split; [|split; [exact Htk|reflexivity]].
      split; [lia|]. unfold number_of_entries.
      rewrite <- length_iterate_all. apply inj_le, length_filter.
  - by rewrite snapshot_filter.
  - intros e. rewrite snapshot_filter, list_elem_of_filter, elem_of_iterate_all. tauto.
  - intros cs Hty t'.
    assert (Hall : snapshot t' 0 = iterate_all t').
    { rewrite snapshot_filter. apply filter_all.
      apply Forall_forall. intros e [k He]%elem_of_iterate_all.
      by apply (run_adds_total_typed cs k e). }
    rewrite Hall. split; [done|].
    split; [by rewrite length_iterate_all|].
    rewrite (iterate_all_methods t' (run_adds_wf cs)).
    split; [apply NoDup_fst_map_to_list|].
    intros fmn. rewrite <- run_adds_is_Some. fold t'.
    rewrite list_elem_of_fmap. split.
    + intros ([k e] & -> & Hin). cbn. apply elem_of_map_to_list in Hin. eauto.
    + intros [e He]. exists (fmn, e). split; [done|]. by apply elem_of_map_to_list.
Qed.

Lemma calc_flat_array_exact_witness :
  let cs := [mkAddCall (mkFullMethodName 1 2 3) compiler_c2 5000 4000 1000 321 10 1;
             mkAddCall (mkFullMethodName 1 2 4) compiler_c1 1000 0 1000 0 11 2;
             mkAddCall (mkFullMethodName 1 2 3) compiler_c2 3000 2000 1000 123 12 1] in
  Forall AddCall_typed cs /\
  Z.of_nat (length (snapshot (run_adds ∅ cs) 0)) = 2 /\
  NoDup (MemStatEntry._method <$> snapshot (run_adds ∅ cs) 0).
Proof.
  intros cs.
  assert (Hty : Forall AddCall_typed cs).
  { repeat (constructor;
            [unfold AddCall_typed, is_size_t, is_unsigned, SIZE_MAX; cbn; lia|]).
    constructor. }
  split; [exact Hty|].
  destruct (calc_flat_array_exact (run_adds ∅ cs) 0) as (_ & _ & _ & H).
  destruct (H cs Hty) as (_ & Hlen & Hnd & _).
  split; [rewrite Hlen; reflexivity|exact Hnd].
Defined.

(** ** The report *)

Lemma printed_entries_app out1 out2 :
  printed_entries (out1 ++ out2) = printed_entries out1 ++ printed_entries out2.
Proof. unfold printed_entries. apply omap_app. Qed.

Lemma printed_entries_rows hr (l : list MemStatEntry.t) :
  printed_entries ((fun e => EntryLine e hr) <$> l) = l.
Proof. induction l as [|e l IH]; [reflexivity|]. cbn. f_equal. exact IH. Qed.

Lemma entry_lines_rows hr (l : list MemStatEntry.t) :
  filter is_entry_line ((fun e => EntryLine e hr) <$> l) = (fun e => EntryLine e hr) <$> l.
Proof.
  induction l as [|e l IH]; [reflexivity|].
  rewrite fmap_cons, filter_cons, decide_True by done. by rewrite IH.
Qed.

Lemma diff_entries_by_size_le a b :
  diff_entries_by_size a b <= 0 <-> MemStatEntry.total b <= MemStatEntry.total a.
Proof.
  unfold diff_entries_by_size, MemStatEntry.compare_by_size, MemStatEntry.total.
  destruct (Z.ltb_spec (MemStatEntry._total b) (MemStatEntry._total a)); [lia|].
  destruct (Z.eqb_spec (MemStatEntry._total b) (MemStatEntry._total a)); lia.
Qed.

Lemma diff_entries_by_size_total_preorder :
  comparator_total_preorder diff_entries_by_size.
Proof.
  split.
  - intros a b. rewrite !diff_entries_by_size_le. lia.
  - intros a b d. rewrite !diff_entries_by_size_le. lia.
Qed.

(** The sorting routine the report is run with in the examples. *)
Lemma insert_sorted_perm {A} (c : A -> A -> Z) x l : insert_sorted c x l ≡ₚ x :: l.
Proof.
  induction l as [|y l IH]; [reflexivity|]. cbn.
  destruct (_ <=? _); [reflexivity|]. rewrite IH. apply Permutation_swap.
Qed.

Lemma insert_sorted_sorted {A} (c : A -> A -> Z) x l :
  comparator_total_preorder c ->
  StronglySorted (fun a b => c a b <= 0) l ->
  StronglySorted (fun a b => c a b <= 0) (insert_sorted c x l).
Proof.
  intros [Htot Htrans]. induction 1 as [|y l Hs IH Hy]; cbn.
  - repeat constructor.
  - destruct (Z.leb_spec (c x y) 0) as [Hxy|Hxy].
    + constructor; [by constructor|]. constructor; [exact Hxy|].
      eapply Forall_impl; [exact Hy|]. cbn. eauto.
    + constructor; [exact IH|].
      rewrite (insert_sorted_perm c x l). constructor; [|exact Hy].
      destruct (Htot x y); lia.
Qed.

Lemma insertion_sort_sorts : sorts insertion_sort.
Proof.
  split.
  - intros c l. induction l as [|x l IH]; [reflexivity|].
    cbn. by rewrite insert_sorted_perm, IH.
  - intros c l Hc. induction l as [|x l IH]; [constructor|].
    cbn. by apply insert_sorted_sorted.
Qed.

Section ReportProperties.

Variable QuickSort_sort :
  (MemStatEntry.t -> MemStatEntry.t -> Z) -> list MemStatEntry.t -> list MemStatEntry.t.

Lemma print_table_eq (t : MemStatTable) hr min_size :
  print_table QuickSort_sort t hr min_size =
    (if min_size >? 0 then
       [ TextLine ("(" +:+ pretty (Z.of_nat (length (snapshot t min_size))) +:+ "/"
                       +:+ pretty (number_of_entries t) +:+ ")") ]
     else []) ++
    (if Z.of_nat (length (snapshot t min_size)) >? 0 then
       (fun e => EntryLine e hr) <$> QuickSort_sort diff_entries_by_size (snapshot t min_size)
     else [ TextLine "No entries." ]).
Proof.
  unfold print_table. rewrite snapshot_filter.
  destruct (calc_flat_array_spec t min_size) as (flat & -> & _ & ->). reflexivity.
Qed.

Lemma print_all_by_size_enabled g (t : MemStatTable) hr min_size :
  _enabled g = true -> _the_table g = Some t ->
  print_all_by_size QuickSort_sort g hr min_size =
    [ TextLine "Compilation memory statistics"; TextLine "" ] ++ print_legend ++
    [ TextLine "" ] ++
    (if min_size >? 0 then
       [ TextLine (" (cutoff: " +:+ pretty min_size +:+ " bytes)") ]
     else []) ++
    [ TextLine "" ] ++ print_header ++ print_table QuickSort_sort t hr min_size.
Proof. intros He Ht. unfold print_all_by_size, enabled. rewrite He, Ht. reflexivity. Qed.

Lemma printed_entries_report g (t : MemStatTable) hr min_size :
  _enabled g = true -> _the_table g = Some t ->
  printed_entries (print_all_by_size QuickSort_sort g hr min_size) =
    (if Z.of_nat (length (snapshot t min_size)) >? 0
     then QuickSort_sort diff_entries_by_size (snapshot t min_size) else []) /\
  filter is_entry_line (print_all_by_size QuickSort_sort g hr min_size) =
    (fun e => EntryLine e hr) <$>
      printed_entries (print_all_by_size QuickSort_sort g hr min_size).
Proof.
  intros He Ht. rewrite (print_all_by_size_enabled g t) by done.
  rewrite print_table_eq.
  rewrite !printed_entries_app, !filter_app.
  destruct (min_size >? 0); destruct (_ >? 0); cbn;
    rewrite ?printed_entries_rows, ?entry_lines_rows, ?app_nil_r; done.
Qed.

(** C8. While the enabled flag is false, the report is the title line
    followed by "(unavailable)" and nothing else: no legend, no header, no
    row. The table is not consulted: the output is the same whatever
    [_the_table] holds. *)
Theorem report_unavailable g hr min_size :
  _enabled g = false ->
  let out := print_all_by_size QuickSort_sort g hr min_size in
  out = [ TextLine "Compilation memory statistics"; TextLine "(unavailable)" ] /\
  TextLine "(unavailable)" ∈ out /\
  printed_entries out = [] /\
  (forall l, l ∈ print_legend ++ print_header -> l ∉ out) /\
  (forall table', print_all_by_size QuickSort_sort (mkStatistic false table') hr min_size = out).
Proof.
  intros He out.
  assert (Hout : out = [ TextLine "Compilation memory statistics"; TextLine "(unavailable)" ]).
  { subst out. unfold print_all_by_size, enabled. by rewrite He. }
  split; [exact Hout|]. rewrite Hout.
  split; [set_solver|]. split; [reflexivity|]. split; [|reflexivity].
  intros l Hl Hin.
  apply list_elem_of_In in Hl. cbn in Hl.
  apply elem_of_cons in Hin as [->|Hin%list_elem_of_singleton]; [|subst l];
    intuition discriminate.
Qed.

Hypothesis QuickSort_sorts : sorts QuickSort_sort.

Lemma sort_by_size_sorted l :
  StronglySorted (fun a b => MemStatEntry.total a >= MemStatEntry.total b)
    (QuickSort_sort diff_entries_by_size l).
Proof.
  destruct QuickSort_sorts as [_ Hs].
  specialize (Hs diff_entries_by_size l diff_entries_by_size_total_preorder).
  induction Hs as [|x l' _ IH Hx]; constructor; [exact IH|].
  eapply Forall_impl; [exact Hx|]. cbn. intros y Hy.
  apply diff_entries_by_size_le in Hy. lia.
Qed.

(** C3. When statistics are enabled, the rows of the report are the records
    of the snapshot for [min_size], each once, in non-increasing order of
    their totals, for every sorting routine that sorts. In particular, on a
    table of three records with totals 5000, 1000 and 3000 and with
    [min_size = 2000], the report has exactly two rows, the record of 5000
    and then the record of 3000, and the line "(2/3)". *)
Theorem report_rows_by_size g (t : MemStatTable) hr min_size :
  _enabled g = true -> _the_table g = Some t ->
  let out := print_all_by_size QuickSort_sort g hr min_size in
  StronglySorted (fun a b => MemStatEntry.total a >= MemStatEntry.total b)
    (printed_entries out) /\
  printed_entries out ≡ₚ snapshot t min_size /\
  filter is_entry_line out = (fun e => EntryLine e hr) <$> printed_entries out /\
  (forall e1 e2 e3,
     iterate_all t ≡ₚ [e1; e2; e3] ->
     MemStatEntry.total e1 = 5000 ->
     MemStatEntry.total e2 = 1000 ->
     MemStatEntry.total e3 = 3000 ->
     min_size = 2000 ->
     filter is_entry_line out = [EntryLine e1 hr; EntryLine e3 hr] /\
     TextLine "(2/3)" ∈ out).
Proof.
  intros He Ht out.
  destruct (printed_entries_report g t hr min_size He Ht) as [Hrows Hlines].
  fold out in Hrows, Hlines.
  assert (Hperm : printed_entries out ≡ₚ snapshot t min_size).
  { rewrite Hrows. destruct (Z.gtb_spec (Z.of_nat (length (snapshot t min_size))) 0) as [|E].
    - apply (proj1 QuickSort_sorts).
    - destruct (snapshot t min_size); [done|]. cbn in E. lia. }
  assert (Hsorted : StronglySorted
            (fun a b => MemStatEntry.total a >= MemStatEntry.total b) (printed_entries out)).
  { rewrite Hrows. destruct (_ >? 0); [apply sort_by_size_sorted|constructor]. }
  split; [exact Hsorted|]. split; [exact Hperm|]. split; [exact Hlines|].
  intros e1 e2 e3 Ht3 H1 H2 H3 ->. subst out.
  assert (Hsnap : snapshot t 2000 ≡ₚ [e1; e3]).
  { rewrite snapshot_filter, Ht3.
    rewrite !filter_cons, filter_nil.
    rewrite decide_True, decide_False, decide_True by lia. done. }
  assert (Hout : printed_entries (print_all_by_size QuickSort_sort g hr 2000) = [e1; e3]).
  { rewrite Hsnap in Hperm. symmetry in Hperm.
    apply Permutation_length_2_inv in Hperm as [->| Heq]; [done|].
    rewrite Heq in Hsorted. inversion Hsorted as [|? ? _ Hall]; subst.
    inversion Hall; subst. lia. }
  split; [by rewrite Hlines, Hout|].
  rewrite (print_all_by_size_enabled g t) by done.
  rewrite print_table_eq.
  assert (Hn : Z.of_nat (length (snapshot t 2000)) = 2) by (by rewrite Hsnap).
  assert (Hall : number_of_entries t = 3).
  { unfold number_of_entries. by rewrite <- length_iterate_all, Ht3. }
  rewrite Hn, Hall. cbn [Z.gtb Z.compare].
  rewrite !elem_of_app. do 6 right. left. vm_compute. by left.
Qed.

End ReportProperties.

Lemma report_rows_by_size_witness :
  let idA := mkFullMethodName 1 2 3 in
  let idB := mkFullMethodName 1 2 4 in
  let idC := mkFullMethodName 5 6 7 in
  let t := run_adds ∅ [mkAddCall idA compiler_c2 5000 4000 1000 321 10 1;
                       mkAddCall idB compiler_c1 1000 0 1000 0 11 2;
                       mkAddCall idC compiler_c2 3000 2000 1000 123 12 1] in
  let g := mkStatistic true (Some t) in
  let e1 := MemStatEntry.mk idA compiler_c2 10 1 1 5000 4000 1000 321 in
  let e2 := MemStatEntry.mk idB compiler_c1 11 1 2 1000 0 1000 0 in
  let e3 := MemStatEntry.mk idC compiler_c2 12 1 1 3000 2000 1000 123 in
  let out := print_all_by_size insertion_sort g false 2000 in
  (sorts insertion_sort /\ _enabled g = true /\ _the_table g = Some t /\
   iterate_all t ≡ₚ [e1; e2; e3]) /\
  filter is_entry_line out = [EntryLine e1 false; EntryLine e3 false] /\
  TextLine "(2/3)" ∈ out.
Proof.
  intros idA idB idC t g e1 e2 e3 out.
  assert (Ht3 : iterate_all t ≡ₚ [e1; e2; e3]).
  { vm_compute. apply perm_swap. }
  pose proof insertion_sort_sorts as Hs.
  split; [auto|].
  destruct (report_rows_by_size insertion_sort Hs g t false 2000 eq_refl eq_refl)
    as (_ & _ & _ & H).
  exact (H e1 e2 e3 Ht3 eq_refl eq_refl eq_refl eq_refl).
Defined.

Lemma report_unavailable_witness :
  let out := print_all_by_size insertion_sort Statistic_init true 2000 in
  _enabled Statistic_init = false /\
  out = [ TextLine "Compilation memory statistics"; TextLine "(unavailable)" ] /\
  printed_entries out = [].
Proof.
  intros out. split; [reflexivity|].
  destruct (report_unavailable insertion_sort Statistic_init true 2000 eq_refl)
    as (Hout & _ & Hrows & _).
  split; [exact Hout|exact Hrows].
Defined.


(** * Further properties of the code *)

(** ** ArenaStatCounter *)

Lemma account_flag_cases env s delta tag :
  let r := account env s delta tag in
  snd r = (_peak s <? _peak (fst r)) /\
  _start (fst r) = _start s /\
  (if snd r
   then _peak (fst r) = _current (fst r) /\
        _na_at_peak (fst r) = _na (fst r) /\ _ra_at_peak (fst r) = _ra (fst r)
   else _peak (fst r) = _peak s /\
        _na_at_peak (fst r) = _na_at_peak s /\ _ra_at_peak (fst r) = _ra_at_peak s /\
        _live_nodes_at_peak (fst r) = _live_nodes_at_peak s).
Proof.
  intros r. subst r.
  pose proof (account_flag env s delta tag) as Hf.
  pose proof (account_peak env s delta tag) as Hp.
  pose proof (account_current env s delta tag) as Hc.
  pose proof (account_at_peak env s delta tag) as Ha.
  split.
  - rewrite Hf, Hp. destruct (Z.gtb_spec (to_size_t (_current s + delta)) (_peak s));
      symmetry; [apply Z.ltb_lt | apply Z.ltb_ge]; lia.
  - split; [apply account_start|].
    rewrite Hf in *. destruct (Z.gtb_spec (to_size_t (_current s + delta)) (_peak s)).
    + rewrite Hp, Hc. split; [lia|tauto].
    + rewrite Hp. split; [lia|tauto].
Qed.

(** X1. The flag [account] returns tells whether the call raised [_peak].
    When it is [true] the peak is the new running total and the at-peak
    snapshots are the category totals of that moment; when it is [false]
    the peak, the snapshots and the node count are as before. [_start] is
    never touched. *)
Theorem account_flag_new_peak env s delta tag :
  let r := account env s delta tag in
  snd r = (_peak s <? _peak (fst r)) /\
  _start (fst r) = _start s /\
  (if snd r
   then _peak (fst r) = _current (fst r) /\
        _na_at_peak (fst r) = _na (fst r) /\ _ra_at_peak (fst r) = _ra (fst r)
   else _peak (fst r) = _peak s /\
        _na_at_peak (fst r) = _na_at_peak s /\ _ra_at_peak (fst r) = _ra_at_peak s /\
        _live_nodes_at_peak (fst r) = _live_nodes_at_peak s).
Proof. exact (account_flag_cases env s delta tag). Qed.

Lemma tracker_typed_new : tracker_typed ArenaStatCounter_new.
Proof. unfold tracker_typed, is_size_t, SIZE_MAX. cbn. lia. Qed.

Lemma tracker_typed_start s : tracker_typed s -> tracker_typed (start s).
Proof. unfold tracker_typed. cbn. tauto. Qed.

Lemma tracker_typed_account s c : tracker_typed s -> tracker_typed (account_call s c).
Proof.
  unfold tracker_typed, account_call. intros (Hc & Hs & Hp & Hn & Hr & Hnp & Hrp).
  pose proof (account_at_peak (ac_env c) s (ac_delta c) (ac_tag c)) as Ha.
  rewrite account_current, account_start, account_peak, account_na, account_ra.
  assert (Hn' : is_size_t match ac_tag c with
                          | tag_node => to_size_t (_na s + ac_delta c) | _ => _na s end)
    by (destruct (ac_tag c); auto using to_size_t_range).
  assert (Hr' : is_size_t match ac_tag c with
                          | tag_ra => to_size_t (_ra s + ac_delta c) | _ => _ra s end)
    by (destruct (ac_tag c); auto using to_size_t_range).
  pose proof (to_size_t_range (_current s + ac_delta c)) as Hc'.
  split; [exact Hc'|]. split; [exact Hs|].
  split; [unfold is_size_t in *; lia|]. split; [exact Hn'|]. split; [exact Hr'|].
  destruct (snd _).
  - destruct Ha as (-> & -> & _). rewrite account_na, account_ra. auto.
  - destruct Ha as (-> & -> & _). auto.
Qed.

Lemma tracker_typed_run_accounts s cs :
  tracker_typed s -> tracker_typed (run_accounts s cs).
Proof.
  revert s. induction cs as [|c cs IH]; intros s H; [exact H|].
  cbn. apply IH. by apply tracker_typed_account.
Qed.

Lemma run_ops_typed (os : list TrackerOp) :
  tracker_typed (run_ops ArenaStatCounter_new os).
Proof.
  generalize tracker_typed_new. generalize ArenaStatCounter_new.
  induction os as [|o os IH]; intros s Hs; [exact Hs|].
  cbn. apply IH. destruct o; cbn;
    [by apply tracker_typed_start | by apply tracker_typed_account].
Qed.

Lemma run_ops_inv (os : list TrackerOp) :
  tracker_inv (run_ops ArenaStatCounter_new os).
Proof.
  generalize tracker_inv_new. generalize ArenaStatCounter_new.
  induction os as [|o os IH]; intros s Hs; [exact Hs|].
  cbn. apply IH. by apply tracker_inv_step.
Qed.


(** X3. On every tracker state reached from the constructed one, the guard in
    [peak_since_start] never cuts a negative difference: the result is
    [_peak - _start], a value of [size_t]. Right after [start] it is zero,
    and a second [start] changes nothing. *)
Theorem peak_since_start_is_difference (os : list TrackerOp) :
  let s := run_ops ArenaStatCounter_new os in
  peak_since_start s = _peak s - _start s /\
  is_size_t (peak_since_start s) /\
  peak_since_start (start s) = 0 /\
  start (start s) = start s.
Proof.
  intros s.
  destruct (run_ops_inv os) as [_ Hps]. fold s in Hps.
  destruct (run_ops_typed os) as (_ & Hs & Hp & _). fold s in Hs, Hp.
  assert (Hd : peak_since_start s = _peak s - _start s).
  { unfold peak_since_start. destruct (Z.gtb_spec (_peak s) (_start s)); lia. }
  split; [exact Hd|]. split; [rewrite Hd; unfold is_size_t in *; lia|].
  split; [|reflexivity].
  unfold peak_since_start. cbn. rewrite Z.gtb_ltb, Z.ltb_irrefl. reflexivity.
Qed.

Lemma to_size_t_add_l a b : to_size_t (to_size_t a + b) = to_size_t (a + b).
Proof. unfold to_size_t. apply Zplus_mod_idemp_l. Qed.

Lemma sum_deltas_cons c cs : sum_deltas (c :: cs) = ac_delta c + sum_deltas cs.
Proof. reflexivity. Qed.

Lemma sum_deltas_tagged_cons tag c cs :
  sum_deltas_tagged tag (c :: cs) =
    (if decide (ac_tag c = tag) then ac_delta c else 0) + sum_deltas_tagged tag cs.
Proof.
  unfold sum_deltas_tagged. rewrite filter_cons.
  destruct (decide (ac_tag c = tag)); [apply sum_deltas_cons|lia].
Qed.

Lemma sum_deltas_perm cs cs' : cs ≡ₚ cs' -> sum_deltas cs = sum_deltas cs'.
Proof.
  induction 1 as [|c l l' _ IH|c c' l|l l' l'' _ IH1 _ IH2];
    rewrite ?sum_deltas_cons; lia.
Qed.

Lemma sum_deltas_tagged_perm tag cs cs' :
  cs ≡ₚ cs' -> sum_deltas_tagged tag cs = sum_deltas_tagged tag cs'.
Proof.
  induction 1 as [|c l l' _ IH|c c' l|l l' l'' _ IH1 _ IH2];
    rewrite ?sum_deltas_tagged_cons; lia.
Qed.

Lemma run_accounts_totals s cs :
  to_size_t (_current (run_accounts s cs)) = to_size_t (_current s + sum_deltas cs) /\
  to_size_t (_na (run_accounts s cs)) = to_size_t (_na s + sum_deltas_tagged tag_node cs) /\
  to_size_t (_ra (run_accounts s cs)) = to_size_t (_ra s + sum_deltas_tagged tag_ra cs).
Proof.
  revert s. induction cs as [|c cs IH]; intros s.
  - unfold sum_deltas_tagged, sum_deltas. cbn. by rewrite !Z.add_0_r.
  - cbn [run_accounts fold_left]. destruct (IH (account_call s c)) as (H1 & H2 & H3).
    unfold run_accounts in *. rewrite H1, H2, H3. unfold account_call.
    rewrite account_current, account_na, account_ra.
    rewrite sum_deltas_cons, !sum_deltas_tagged_cons.
    rewrite to_size_t_add_l. split; [f_equal; lia|].
    destruct (ac_tag c);
      repeat (first [rewrite decide_True by done | rewrite decide_False by done]);
      rewrite ?to_size_t_add_l; split; f_equal; lia.
Qed.

(** X4. The running totals are sums modulo 2^64: after any sequence of
    calls the total is the initial total plus all deltas, and the node and
    resource totals are the initial ones plus the deltas of their tag,
    reduced to [size_t]. Deltas with any other tag count for the total
    only. Hence the three totals do not depend on the order of the calls
    (the peak does). *)
Theorem running_totals_are_wrapped_sums s cs :
  tracker_typed s ->
  _current (run_accounts s cs) = to_size_t (_current s + sum_deltas cs) /\
  _na (run_accounts s cs) = to_size_t (_na s + sum_deltas_tagged tag_node cs) /\
  _ra (run_accounts s cs) = to_size_t (_ra s + sum_deltas_tagged tag_ra cs) /\
  (forall cs', cs ≡ₚ cs' ->
     _current (run_accounts s cs') = _current (run_accounts s cs) /\
     _na (run_accounts s cs') = _na (run_accounts s cs) /\
     _ra (run_accounts s cs') = _ra (run_accounts s cs)).
Proof.
  intros Hs.
  assert (Hall : forall l,
    _current (run_accounts s l) = to_size_t (_current s + sum_deltas l) /\
    _na (run_accounts s l) = to_size_t (_na s + sum_deltas_tagged tag_node l) /\
    _ra (run_accounts s l) = to_size_t (_ra s + sum_deltas_tagged tag_ra l)).
  { intros l. destruct (run_accounts_totals s l) as (H1 & H2 & H3).
    destruct (tracker_typed_run_accounts s l Hs) as (Tc & _ & _ & Tn & Tr & _).
    rewrite <- H1, <- H2, <- H3. rewrite !to_size_t_id by assumption. auto. }
  destruct (Hall cs) as (H1 & H2 & H3).
  split; [exact H1|]. split; [exact H2|]. split; [exact H3|].
  intros cs' Hp. destruct (Hall cs') as (H1' & H2' & H3').
  rewrite H1, H2, H3, H1', H2', H3'.
  rewrite (sum_deltas_perm _ _ Hp), !(sum_deltas_tagged_perm _ _ _ Hp). auto.
Qed.

Lemma running_totals_are_wrapped_sums_witness :
  let e := mkCompilerEnv true (Some (Some compiler_c2)) (Some 7) in
  let s := start ArenaStatCounter_new in
  let cs := [mkAccountCall 1000 tag_node e; mkAccountCall 500 tag_ra e;
             mkAccountCall 64 tag_ha e; mkAccountCall (-300) tag_node e] in
  tracker_typed s /\
  _current (run_accounts s cs) = 1264 /\
  _na (run_accounts s cs) = 700 /\
  _ra (run_accounts s cs) = 500.
Proof.
  intros e s cs.
  assert (Hs : tracker_typed s) by (apply tracker_typed_start, tracker_typed_new).
  split; [exact Hs|].
  destruct (running_totals_are_wrapped_sums s cs Hs) as (H1 & H2 & H3 & _).
  rewrite H1, H2, H3. repeat split; reflexivity.
Defined.

Lemma running_max_ge c ds : c <= running_max c ds.
Proof. destruct ds; cbn; lia. Qed.

Lemma run_accounts_running_max s cs :
  _current s <= _peak s ->
  totals_fit_size_t (_current s) (ac_delta <$> cs) = true ->
  _peak (run_accounts s cs)
    = Z.max (_peak s) (running_max (_current s) (ac_delta <$> cs)) /\
  _current (run_accounts s cs) = _current s + sum_deltas cs.
Proof.
  revert s. induction cs as [|c cs IH]; intros s Hp Hfit.
  - unfold sum_deltas. cbn. split; lia.
  - cbn in Hfit. apply andb_true_iff in Hfit as [Hfit1 Hfit].
    apply andb_true_iff in Hfit1 as [Hlo Hhi]. apply Z.leb_le in Hlo, Hhi.
    assert (Hc : _current (account_call s c) = _current s + ac_delta c).
    { unfold account_call. rewrite account_current. apply to_size_t_id.
      unfold is_size_t. lia. }
    assert (Hpk : _peak (account_call s c) = Z.max (_peak s) (_current s + ac_delta c)).
    { unfold account_call. rewrite account_peak.
      rewrite to_size_t_id by (unfold is_size_t; lia). reflexivity. }
    destruct (IH (account_call s c)) as [IH1 IH2].
    + rewrite Hc, Hpk. lia.
    + by rewrite Hc.
    + cbn [run_accounts fold_left fmap list_fmap running_max]. unfold run_accounts in *.
      rewrite IH1, IH2, Hpk, Hc, sum_deltas_cons.
      pose proof (running_max_ge (_current s + ac_delta c) (ac_delta <$> cs)).
      change (list_fmap _ _ ac_delta cs) with (ac_delta <$> cs). split; lia.
Qed.

Lemma start_window_running_max (s0 : ArenaStatCounter) (cs : list AccountCall) :
  let w := start s0 in
  totals_fit_size_t (_current w) (ac_delta <$> cs) = true ->
  _peak (run_accounts w cs) = running_max (_current w) (ac_delta <$> cs) /\
  peak_since_start (run_accounts w cs)
    = running_max (_current w) (ac_delta <$> cs) - _current w /\
  _current (run_accounts w cs) = _current w + sum_deltas cs.
Proof.
  intros w Hfit.
  destruct (run_accounts_running_max w cs ltac:(cbn; lia) Hfit) as [Hp Hc].
  pose proof (running_max_ge (_current w) (ac_delta <$> cs)) as Hge.
  assert (Hpk : _peak (run_accounts w cs) = running_max (_current w) (ac_delta <$> cs)).
  { rewrite Hp. change (_peak w) with (_current w). lia. }
  split; [exact Hpk|]. split; [|exact Hc].
  unfold peak_since_start. rewrite run_accounts_start, Hpk.
  change (_start w) with (_current w).
  destruct (Z.gtb_spec (running_max (_current w) (ac_delta <$> cs)) (_current w)); lia.
Qed.

(** X5. In a window opened by [start] in which the running total stays a
    value of [size_t] at every prefix, [_peak] at the end is the largest
    value the running total took in the window, [peak_since_start] is that
    value minus the total at [start], and the running total is the plain
    sum. *)
Theorem peak_is_running_max (s0 : ArenaStatCounter) (cs : list AccountCall) :
  let w := start s0 in
  totals_fit_size_t (_current w) (ac_delta <$> cs) = true ->
  _peak (run_accounts w cs) = running_max (_current w) (ac_delta <$> cs) /\
  peak_since_start (run_accounts w cs)
    = running_max (_current w) (ac_delta <$> cs) - _current w /\
  _current (run_accounts w cs) = _current w + sum_deltas cs.
Proof. exact (start_window_running_max s0 cs). Qed.

Lemma peak_is_running_max_witness :
  let e := mkCompilerEnv true (Some (Some compiler_c1)) None in
  let s0 := run_accounts ArenaStatCounter_new [mkAccountCall 4096 tag_other e] in
  let cs := [mkAccountCall 1000 tag_node e; mkAccountCall (-400) tag_node e;
             mkAccountCall 900 tag_ra e; mkAccountCall (-1500) tag_ra e] in
  totals_fit_size_t (_current (start s0)) (ac_delta <$> cs) = true /\
  _peak (run_accounts (start s0) cs) = 5596 /\
  peak_since_start (run_accounts (start s0) cs) = 1500.
Proof.
  intros e s0 cs.
  assert (Hfit : totals_fit_size_t (_current (start s0)) (ac_delta <$> cs) = true)
    by reflexivity.
  split; [exact Hfit|].
  destruct (peak_is_running_max s0 cs Hfit) as (H1 & H2 & _).
  rewrite H1, H2. split; reflexivity.
Defined.

Lemma peak_event_from_fields p s cs :
  _peak s = _peak p -> _na_at_peak s = _na_at_peak p ->
  _ra_at_peak s = _ra_at_peak p -> _live_nodes_at_peak s = _live_nodes_at_peak p ->
  let r := run_accounts s cs in
  let q := peak_event_from p s cs in
  _peak r = _peak q /\ _na_at_peak r = _na_at_peak q /\
  _ra_at_peak r = _ra_at_peak q /\ _live_nodes_at_peak r = _live_nodes_at_peak q.
Proof.
  revert p s. induction cs as [|c cs IH]; intros p s H1 H2 H3 H4; [cbn; auto|].
  cbn [run_accounts fold_left peak_event_from]. cbv zeta.
  pose proof (account_flag_cases (ac_env c) s (ac_delta c) (ac_tag c)) as Hf.
  cbv zeta in Hf. destruct Hf as (_ & _ & Hf).
  unfold account_call at 1.
  destruct (snd (account (ac_env c) s (ac_delta c) (ac_tag c))).
  - by apply IH.
  - destruct Hf as (? & ? & ? & ?). apply IH; congruence.
Qed.

Lemma peak_event_from_split p s cs :
  peak_event_from p s cs = p \/
  exists cs1 c cs2,
    cs = cs1 ++ c :: cs2 /\
    peak_event_from p s cs = account_call (run_accounts s cs1) c /\
    snd (account (ac_env c) (run_accounts s cs1) (ac_delta c) (ac_tag c)) = true.
Proof.
  revert p s. induction cs as [|c cs IH]; intros p s; [by left|].
  cbn [peak_event_from]. cbv zeta.
  destruct (snd (account (ac_env c) s (ac_delta c) (ac_tag c))) eqn:Ef.
  - right. destruct (IH (fst (account (ac_env c) s (ac_delta c) (ac_tag c)))
                        (fst (account (ac_env c) s (ac_delta c) (ac_tag c))))
      as [Heq|(cs1 & c' & cs2 & -> & Heq & Hfl)].
    + exists [], c, cs. rewrite Heq. auto.
    + exists (c :: cs1), c', cs2. rewrite Heq. auto.
  - destruct (IH p (fst (account (ac_env c) s (ac_delta c) (ac_tag c))))
      as [Heq|(cs1 & c' & cs2 & -> & Heq & Hfl)]; [by left|].
    right. exists (c :: cs1), c', cs2. rewrite Heq. auto.
Qed.

(** X6. After any sequence of calls, [_peak], the at-peak category
    snapshots and the node count at peak are those of the state right after
    the last call that returned [true]: there the peak is the running total
    and the snapshots are the category totals, and the node count is what
    [update_c2_node_count] made of it at that call. Later calls, which did
    not raise the peak, left all four alone. When no call returned [true]
    the four fields are those of the initial state. *)
Theorem at_peak_fields_from_last_peak_event s cs :
  let r := run_accounts s cs in
  let q := peak_event s cs in
  (_peak r = _peak q /\ _na_at_peak r = _na_at_peak q /\
   _ra_at_peak r = _ra_at_peak q /\ _live_nodes_at_peak r = _live_nodes_at_peak q) /\
  (q = s \/
   exists cs1 c cs2,
     cs = cs1 ++ c :: cs2 /\
     q = account_call (run_accounts s cs1) c /\
     snd (account (ac_env c) (run_accounts s cs1) (ac_delta c) (ac_tag c)) = true /\
     _peak r = _current q /\ _na_at_peak r = _na q /\ _ra_at_peak r = _ra q /\
     _live_nodes_at_peak r
       = c2_node_count (ac_env c) (_live_nodes_at_peak (run_accounts s cs1))).
Proof.
  intros r q. subst r q. unfold peak_event.
  pose proof (peak_event_from_fields s s cs eq_refl eq_refl eq_refl eq_refl) as Hf.
  cbv zeta in Hf. destruct Hf as (H1 & H2 & H3 & H4).
  split; [auto|].
  destruct (peak_event_from_split s s cs) as [Heq|(cs1 & c & cs2 & Hcs & Heq & Hfl)];
    [by left|right].
  exists cs1, c, cs2. split; [exact Hcs|]. split; [exact Heq|]. split; [exact Hfl|].
  rewrite H1, H2, H3, H4, Heq. unfold account_call.
  pose proof (account_flag_cases (ac_env c) (run_accounts s cs1) (ac_delta c) (ac_tag c)) as Hp.
  pose proof (account_at_peak (ac_env c) (run_accounts s cs1) (ac_delta c) (ac_tag c)) as Ha.
  cbv zeta in Hp. rewrite Hfl in Hp, Ha. tauto.
Qed.

(** X7. In an [ASSERT] build, on a tracker that satisfies its invariants and
    whose running total is at most [SSIZE_MAX], a call with a delta of
    [ssize_t] stops with "Negative overflow" exactly when the delta would
    take the total below zero; otherwise it does what the build without
    assertions does. The second assertion, "Sanity", never fails there. *)
Theorem account_debug_fails_iff_negative env s delta tag :
  tracker_inv s ->
  0 <= _current s <= SSIZE_MAX ->
  is_ssize_t delta ->
  account_debug env s delta tag =
    if _current s + delta <? 0 then inl Negative_overflow
    else inr (account env s delta tag).
Proof.
  unfold tracker_inv, is_ssize_t, SSIZE_MIN, SSIZE_MAX. intros [Hpc _] Hc Hd.
  unfold account_debug, account, no_negative_overflow.
  cbn [account_totals _current _peak].
  destruct (Z.geb_spec delta 0) as [Hpos|Hneg]; cbn [orb].
  - destruct (Z.ltb_spec (_current s + delta) 0); [lia|].
    rewrite to_size_t_id by (unfold is_size_t, SIZE_MAX; lia).
    destruct (Z.gtb_spec (_current s + delta) (_peak s)); [|reflexivity].
    destruct (Z.gtb_spec delta 0); [reflexivity|lia].
  - rewrite (to_ssize_t_id (_current s)) by (unfold is_ssize_t, SSIZE_MIN, SSIZE_MAX; lia).
    rewrite to_ssize_t_id by (unfold is_ssize_t, SSIZE_MIN, SSIZE_MAX; lia).
    destruct (Z.geb_spec (_current s + delta) 0), (Z.ltb_spec (_current s + delta) 0);
      try lia; [|reflexivity].
    rewrite to_size_t_id by (unfold is_size_t, SIZE_MAX; lia).
    destruct (Z.gtb_spec (_current s + delta) (_peak s)); [lia|reflexivity].
Qed.

Lemma account_debug_fails_iff_negative_witness :
  let e := mkCompilerEnv true (Some (Some compiler_c2)) (Some 7) in
  let s := run_accounts (start ArenaStatCounter_new) [mkAccountCall 100 tag_ra e] in
  (tracker_inv s /\ 0 <= _current s <= SSIZE_MAX /\ is_ssize_t (-101)) /\
  account_debug e s (-101) tag_ra = inl Negative_overflow /\
  account_debug e s (-100) tag_ra = inr (account e s (-100) tag_ra).
Proof.
  intros e s.
  assert (H1 : tracker_inv s) by (vm_compute; split; discriminate).
  assert (H2 : 0 <= _current s <= SSIZE_MAX) by (vm_compute; split; discriminate).
  assert (H3 : is_ssize_t (-101)) by (vm_compute; split; discriminate).
  assert (H4 : is_ssize_t (-100)) by (vm_compute; split; discriminate).
  split; [auto|]. split.
  - exact (account_debug_fails_iff_negative e s (-101) tag_ra H1 H2 H3).
  - exact (account_debug_fails_iff_negative e s (-100) tag_ra H1 H2 H4).
Defined.

(** X8. An allocation followed by the matching release, under the same tag,
    brings the running total and both category totals back to where they
    were, also when the additions wrap. On a tracker that satisfies its
    invariant the release returns [false] and leaves the peak where the
    allocation put it. *)
Theorem account_release_restores_totals env1 env2 s delta tag :
  tracker_typed s ->
  tracker_inv s ->
  let r1 := account env1 s delta tag in
  let r2 := account env2 (fst r1) (- delta) tag in
  _current (fst r2) = _current s /\
  _na (fst r2) = _na s /\ _ra (fst r2) = _ra s /\
  snd r2 = false /\
  _peak (fst r2) = _peak (fst r1).
Proof.
  intros (Hc & _ & Hp & Hn & Hr & _) [Hpc _] r1 r2. subst r1 r2.
  assert (Hback : forall x, is_size_t x -> to_size_t (to_size_t (x + delta) + - delta) = x).
  { intros x Hx. rewrite to_size_t_add_l.
    replace (x + delta + - delta) with x by lia. by apply to_size_t_id. }
  assert (Hcur : to_size_t (_current (fst (account env1 s delta tag)) + - delta) = _current s).
  { rewrite account_current. by apply Hback. }
  rewrite account_peak, account_flag, account_current, account_na, account_ra.
  rewrite Hcur. rewrite account_peak, account_na, account_ra.
  split; [reflexivity|].
  split; [destruct tag; auto|]. split; [destruct tag; auto|].
  split; [rewrite Z.gtb_ltb; apply Z.ltb_ge; lia | lia].
Qed.

Lemma account_release_restores_totals_witness :
  let e := mkCompilerEnv true (Some (Some compiler_c2)) (Some 7) in
  let s := start ArenaStatCounter_new in
  (tracker_typed s /\ tracker_inv s) /\
  _current (fst (account e (fst (account e s 4096 tag_node)) (-4096) tag_node)) = 0 /\
  _peak (fst (account e (fst (account e s 4096 tag_node)) (-4096) tag_node)) = 4096.
Proof.
  intros e s.
  assert (H1 : tracker_typed s) by (apply tracker_typed_start, tracker_typed_new).
  assert (H2 : tracker_inv s) by apply tracker_inv_start.
  split; [auto|].
  destruct (account_release_restores_totals e e s 4096 tag_node H1 H2)
    as (Hc & _ & _ & _ & Hp).
  split; [exact Hc|]. etrans; [exact Hp|reflexivity].
Defined.

(** ** FullMethodName and MemStatEntry *)

Lemma lxor_unsigned a b : is_unsigned a -> is_unsigned b -> is_unsigned (Z.lxor a b).
Proof.
  unfold is_unsigned. intros [Ha Ha'] [Hb Hb'].
  assert (Hnn : 0 <= Z.lxor a b) by (apply Z.lxor_nonneg; tauto).
  split; [exact Hnn|].
  destruct (Z.eq_dec (Z.lxor a b) 0) as [->|Hne]; [lia|].
  apply Z.log2_lt_pow2; [lia|].
  pose proof (Z.log2_lxor a b Ha Hb) as Hl.
  assert (Hla : Z.log2 a < 32).
  { destruct (Z.eq_dec a 0) as [->|]; [cbn; lia|]. apply Z.log2_lt_pow2; lia. }
  assert (Hlb : Z.log2 b < 32).
  { destruct (Z.eq_dec b 0) as [->|]; [cbn; lia|]. apply Z.log2_lt_pow2; lia. }
  lia.
Qed.

(** X9. [equals] holds exactly for names with the same three symbols, and
    such names have the same hash. The hash does not see which symbol is in
    which place: exchanging the class and the method symbol, or the class
    and the signature symbol, gives the same hash, so such names share a
    bucket. With [unsigned] symbol hashes the hash is an [unsigned]. *)
Theorem FullMethodName_equals_and_hash (h : N -> Z) (a b : FullMethodName) :
  (FullMethodName_ops.equals a b = true <-> a = b) /\
  (FullMethodName_ops.equals a b = true -> compute_hash h a = compute_hash h b) /\
  compute_hash h (mkFullMethodName (_m a) (_k a) (_s a)) = compute_hash h a /\
  compute_hash h (mkFullMethodName (_s a) (_m a) (_k a)) = compute_hash h a /\
  ((forall x, is_unsigned (h x)) -> is_unsigned (compute_hash h a)).
Proof.
  assert (Heq : FullMethodName_ops.equals a b = true <-> a = b).
  { unfold FullMethodName_ops.equals. rewrite !andb_true_iff, !N.eqb_eq.
    destruct a, b; cbn. split; [intros [[-> ->] ->]; reflexivity|].
    intros [= -> -> ->]. auto. }
  split; [exact Heq|]. split; [intros H; apply Heq in H; by subst|].
  unfold compute_hash. cbn. split; [by rewrite (Z.lxor_comm (h (_m a)))|]. split.
  - apply Z.bits_inj. intros n. rewrite !Z.lxor_spec.
    by destruct (Z.testbit (h (_k a)) n), (Z.testbit (h (_m a)) n),
                (Z.testbit (h (_s a)) n).
  - intros Hh. by repeat apply lxor_unsigned.
Qed.

Lemma FullMethodName_equals_and_hash_witness :
  let h := fun x : N => Z.of_N x mod 2 ^ 32 in
  let a := mkFullMethodName 11 22 33 in
  (FullMethodName_ops.equals a a = true /\ (forall x, is_unsigned (h x))) /\
  compute_hash h a = compute_hash h a /\
  is_unsigned (compute_hash h a).
Proof.
  intros h a.
  assert (H1 : FullMethodName_ops.equals a a = true) by reflexivity.
  assert (H2 : forall x, is_unsigned (h x)).
  { intros x. unfold is_unsigned, h. apply Z.mod_pos_bound. lia. }
  split; [auto|].
  destruct (FullMethodName_equals_and_hash h a a) as (_ & Hh & _ & _ & Hu).
  split; [exact (Hh H1)|exact (Hu H2)].
Defined.

(** X10. The comparator of the report orders by total, larger first: its
    result is -1, 0 or 1; exchanging the arguments negates it; it is zero
    exactly on equal totals and negative exactly when the first record has
    the larger total; and it is transitive. *)
Theorem compare_by_size_order (a b c : MemStatEntry.t) :
  (MemStatEntry.compare_by_size a b = -1 \/ MemStatEntry.compare_by_size a b = 0 \/
   MemStatEntry.compare_by_size a b = 1) /\
  MemStatEntry.compare_by_size a b = - MemStatEntry.compare_by_size b a /\
  (MemStatEntry.compare_by_size a b = 0 <-> MemStatEntry.total a = MemStatEntry.total b) /\
  (MemStatEntry.compare_by_size a b < 0 <-> MemStatEntry.total b < MemStatEntry.total a) /\
  (MemStatEntry.compare_by_size a b <= 0 -> MemStatEntry.compare_by_size b c <= 0 ->
   MemStatEntry.compare_by_size a c <= 0).
Proof.
  unfold MemStatEntry.compare_by_size, MemStatEntry.total. cbv zeta.
  destruct (Z.ltb_spec (MemStatEntry._total b) (MemStatEntry._total a)),
           (Z.eqb_spec (MemStatEntry._total b) (MemStatEntry._total a)),
           (Z.ltb_spec (MemStatEntry._total a) (MemStatEntry._total b)),
           (Z.eqb_spec (MemStatEntry._total a) (MemStatEntry._total b)),
           (Z.ltb_spec (MemStatEntry._total c) (MemStatEntry._total b)),
           (Z.eqb_spec (MemStatEntry._total c) (MemStatEntry._total b)),
           (Z.ltb_spec (MemStatEntry._total c) (MemStatEntry._total a)),
           (Z.eqb_spec (MemStatEntry._total c) (MemStatEntry._total a));
    try lia; repeat split; try lia; auto.
Qed.

Lemma compare_by_size_order_witness :
  let a := MemStatEntry.set_total 5000 (MemStatEntry.new (mkFullMethodName 1 2 3)) in
  let b := MemStatEntry.set_total 3000 (MemStatEntry.new (mkFullMethodName 1 2 4)) in
  let c := MemStatEntry.set_total 1000 (MemStatEntry.new (mkFullMethodName 1 2 5)) in
  (MemStatEntry.compare_by_size a b <= 0 /\ MemStatEntry.compare_by_size b c <= 0) /\
  MemStatEntry.compare_by_size a c <= 0.
Proof.
  intros a b c.
  assert (H1 : MemStatEntry.compare_by_size a b <= 0) by (vm_compute; discriminate).
  assert (H2 : MemStatEntry.compare_by_size b c <= 0) by (vm_compute; discriminate).
  split; [auto|].
  exact (proj2 (proj2 (proj2 (proj2 (compare_by_size_order a b c)))) H1 H2).
Defined.


(** ** MemStatTable *)

(** X11. One call of [add] touches one record: the records of all other
    identities are as before; the number of entries grows by one when the
    identity was absent and stays when it was present; a record is always
    left for the identity, with the identity the old record had (the new
    one when there was none) and a count one above the old count (one when
    there was none), in [int] arithmetic; and records stay filed under
    their own identity. *)
Theorem add_touches_one_record (t : MemStatTable) (c : AddCall) :
  (forall k, k <> add_fmn c -> add t c !! k = t !! k) /\
  number_of_entries (add t c)
    = number_of_entries t + (if t !! add_fmn c is Some _ then 0 else 1) /\
  (exists e,
     add t c !! add_fmn c = Some e /\
     MemStatEntry._method e
       = from_option MemStatEntry._method (add_fmn c) (t !! add_fmn c) /\
     MemStatEntry._num_recomp e
       = to_int (from_option MemStatEntry._num_recomp 0 (t !! add_fmn c) + 1)) /\
  (table_wf t -> table_wf (add t c)).
Proof.
  split; [intros k Hk; by apply add_lookup_ne|]. split; [|split].
  - unfold number_of_entries, add.
    destruct (t !! add_fmn c) as [e0|] eqn:E.
    + rewrite map_size_insert_Some by eauto. lia.
    + rewrite map_size_insert_None by done. lia.
  - eexists. split; [apply add_lookup_eq|].
    destruct (t !! add_fmn c); cbn; auto.
  - intros Hwf k e He. destruct (decide (k = add_fmn c)) as [->|Hne].
    + rewrite add_lookup_eq in He. injection He as <-. cbn.
      destruct (t !! add_fmn c) as [e0|] eqn:E; cbn; [by apply Hwf|reflexivity].
    + rewrite add_lookup_ne in He by done. by apply Hwf.
Qed.

Lemma add_touches_one_record_witness :
  let idA := mkFullMethodName 1 2 3 in
  let c := mkAddCall idA compiler_c2 1500 1000 500 321 10 1 in
  table_wf (∅ : gmap FullMethodName MemStatEntry.t) /\
  table_wf (add ∅ c) /\ table_wf (add (add ∅ c) c).
Proof.
  intros idA c.
  assert (H0 : table_wf (∅ : gmap FullMethodName MemStatEntry.t))
    by (intros k e He; by rewrite lookup_empty in He).
  split; [exact H0|].
  pose proof (proj2 (proj2 (proj2 (add_touches_one_record ∅ c))) H0) as H1.
  split; [exact H1|].
  exact (proj2 (proj2 (proj2 (add_touches_one_record (add ∅ c) c))) H1).
Defined.

Lemma fold_do_f_rest min_size l :
  forall flat i, 0 <= i ->
    exists flat' i',
      fold_left (do_f min_size) l (flat, i) = (flat', i') /\ i <= i' /\
      drop (Z.to_nat i') flat' = drop (Z.to_nat i') flat.
Proof.
  induction l as [|e l IH]; intros flat i Hi.
  - exists flat, i. cbn. split; [reflexivity|]. split; [lia|reflexivity].
  - cbn [fold_left do_f].
    destruct (MemStatEntry.total e >=? min_size).
    + destruct (IH (<[Z.to_nat i := Some e]> flat) (i + 1)) as (flat' & i' & Hf & Hle & Hd);
        [lia|].
      exists flat', i'. split; [exact Hf|]. split; [lia|].
      rewrite Hd. apply drop_insert_lt. lia.
    + destruct (IH flat i Hi) as (flat' & i' & Hf & Hle & Hd). eauto.
Qed.

(** X12. [calc_flat_array] writes only the first [num] slots of the array
    it allocates: the array has one slot per entry of the table, and every
    slot from [num] on is as allocated. An empty table gives an empty array
    and [num = 0]. *)
Theorem calc_flat_array_rest_unwritten (t : MemStatTable) (min_size : Z) :
  length (calc_flat_array t min_size).1 = size t /\
  0 <= (calc_flat_array t min_size).2 <= number_of_entries t /\
  drop (Z.to_nat (calc_flat_array t min_size).2) (calc_flat_array t min_size).1
    = replicate (size t - Z.to_nat (calc_flat_array t min_size).2) None /\
  calc_flat_array ∅ min_size = ([], 0).
Proof.
  destruct (calc_flat_array_spec t min_size) as (flat & Hc & Hlen & _).
  rewrite Hc. cbn [fst snd]. split; [exact Hlen|]. split.
  { split; [lia|]. unfold number_of_entries. rewrite <- length_iterate_all.
    apply inj_le, length_filter. }
  split.
  - unfold calc_flat_array in Hc.
    destruct (fold_do_f_rest min_size (iterate_all t)
                (replicate (Z.to_nat (number_of_entries t)) None) 0 ltac:(lia))
      as (flat' & i' & Hf & _ & Hd).
    rewrite Hf in Hc. injection Hc as -> ->.
    rewrite Hd, drop_replicate. unfold number_of_entries. by rewrite Nat2Z.id.
  - reflexivity.
Qed.

(** ** CompilationMemoryStatistic *)

Lemma compilation_arena_stat_run arena_stat c :
  compilation_arena_stat arena_stat c = run_accounts (start arena_stat) (comp_changes c).
Proof. reflexivity. Qed.

(** X13. The total a compilation leaves in the registry is the growth of
    the running total during the compilation: when the running total stays
    a value of [size_t] throughout, the record of the compiled method holds
    the largest value the total took since [on_start_compilation], minus
    the value it had then, whatever was allocated before. The compilation
    leaves the enabled flag and the records of all other methods as they
    were. *)
Theorem compile_records_window_growth
    (arena_stat : ArenaStatCounter) (g : Statistic) (t : MemStatTable) (c : Compilation) :
  _the_table g = Some t ->
  totals_fit_size_t (_current arena_stat) (ac_delta <$> comp_changes c) = true ->
  exists arena_stat' g' t' e,
    compile arena_stat g c = Some (arena_stat', g') /\
    _enabled g' = _enabled g /\
    _the_table g' = Some t' /\
    t' !! end_method (comp_end c) = Some e /\
    MemStatEntry._total e
      = running_max (_current arena_stat) (ac_delta <$> comp_changes c)
        - _current arena_stat /\
    MemStatEntry._comptype e = end_ct (comp_end c) /\
    (forall k, k <> end_method (comp_end c) -> t' !! k = t !! k) /\
    _current arena_stat' = _current arena_stat + sum_deltas (comp_changes c).
Proof.
  intros Ht Hfit.
  destruct (start_window_running_max arena_stat (comp_changes c) Hfit) as (_ & Hpss & Hcur).
  unfold compile, on_end_compilation. rewrite Ht.
  destruct (add_lookup_same t (end_add_call (comp_end c) (compilation_arena_stat arena_stat c)))
    as (e & He & Hct & Htot & _).
  cbn in He, Hct, Htot.
  eexists _, _, _, e. split; [reflexivity|]. split; [reflexivity|].
  split; [reflexivity|]. split; [exact He|].
  rewrite compilation_arena_stat_run in *.
  split; [by rewrite Htot|]. split; [exact Hct|]. split; [|exact Hcur].
  intros k Hk. by apply add_lookup_ne.
Qed.

Lemma compile_records_window_growth_witness :
  let e := mkCompilerEnv true (Some (Some compiler_c1)) None in
  let arena_stat := run_accounts ArenaStatCounter_new [mkAccountCall 4096 tag_other e] in
  let g := initialize Statistic_init in
  let c := {| comp_changes := [mkAccountCall 1000 tag_ra e; mkAccountCall (-400) tag_ra e;
                               mkAccountCall 900 tag_ra e; mkAccountCall (-1500) tag_ra e];
              comp_end := mkEndEnv compiler_c1 (mkFullMethodName 4 5 6) false 0 1 |} in
  (_the_table g = Some ∅ /\
   totals_fit_size_t (_current arena_stat) (ac_delta <$> comp_changes c) = true) /\
  exists arena_stat' g' t' e',
    compile arena_stat g c = Some (arena_stat', g') /\
    _the_table g' = Some t' /\
    t' !! mkFullMethodName 4 5 6 = Some e' /\
    MemStatEntry._total e' = 1500.
Proof.
  intros e arena_stat g c.
  assert (H1 : _the_table g = Some ∅) by reflexivity.
  assert (H2 : totals_fit_size_t (_current arena_stat) (ac_delta <$> comp_changes c) = true)
    by reflexivity.
  split; [auto|].
  destruct (compile_records_window_growth arena_stat g ∅ c H1 H2)
    as (a' & g' & t' & e' & Hc & _ & Ht & He & Htot & _).
  exists a', g', t', e'. split; [exact Hc|]. split; [exact Ht|]. split; [exact He|].
  rewrite Htot. reflexivity.
Defined.

Lemma end_compilations_table l :
  forall (t : MemStatTable) b,
    end_compilations (mkStatistic b (Some t)) l
      = Some (mkStatistic b
                (Some (run_adds t ((fun p => end_add_call p.1 p.2) <$> l)))).
Proof.
  induction l as [|[env a] l IH]; intros t b; [reflexivity|].
  cbn [end_compilations on_end_compilation _the_table _enabled]. rewrite IH. reflexivity.
Qed.

Section ReportLifecycle.

Variable QuickSort_sort :
  (MemStatEntry.t -> MemStatEntry.t -> Z) -> list MemStatEntry.t -> list MemStatEntry.t.

Lemma not_initialized_not_printed g (t : MemStatTable) hr min_size :
  _enabled g = true -> _the_table g = Some t ->
  TextLine "Not initialized." ∉ print_all_by_size QuickSort_sort g hr min_size.
Proof.
  intros He Ht Hin.
  rewrite (print_all_by_size_enabled QuickSort_sort g t) in Hin by done.
  rewrite print_table_eq in Hin. rewrite !elem_of_app in Hin.
  destruct Hin as [Hin|[Hin|[Hin|[Hin|[Hin|[Hin|[Hin|Hin]]]]]]].
  - apply list_elem_of_In in Hin. cbn in Hin. intuition discriminate.
  - apply list_elem_of_In in Hin. cbn in Hin. intuition discriminate.
  - apply list_elem_of_In in Hin. cbn in Hin. intuition discriminate.
  - destruct (min_size >? 0); apply list_elem_of_In in Hin; cbn in Hin;
      intuition discriminate.
  - apply list_elem_of_In in Hin. cbn in Hin. intuition discriminate.
  - apply list_elem_of_In in Hin. cbn in Hin. intuition discriminate.
  - destruct (min_size >? 0); apply list_elem_of_In in Hin; cbn in Hin;
      intuition discriminate.
  - destruct (_ >? 0).
    + apply list_elem_of_fmap in Hin as (e & Heq & _). discriminate.
    + apply list_elem_of_In in Hin. cbn in Hin. intuition discriminate.
Qed.

(** X14. Before [initialize], [on_end_compilation] has no table to add to.
    After [initialize], any number of [on_end_compilation] calls go
    through: the flag stays set, the table is the empty table with one
    [add] per call, in order, and a report then always carries the legend
    and the header and never the line "Not initialized.". *)
Theorem statistics_lifecycle (g0 : Statistic) (l : list (EndEnv * ArenaStatCounter)) :
  (forall env arena_stat, on_end_compilation env arena_stat Statistic_init = None) /\
  exists t g,
    t = run_adds ∅ ((fun p => end_add_call p.1 p.2) <$> l) /\
    g = mkStatistic true (Some t) /\
    end_compilations (initialize g0) l = Some g /\
    (forall hr min_size,
       (TextLine "Not initialized." ∉ print_all_by_size QuickSort_sort g hr min_size) /\
       (forall line, line ∈ print_legend ++ print_header ->
                     line ∈ print_all_by_size QuickSort_sort g hr min_size)).
Proof.
  split; [reflexivity|].
  eexists _, _. split; [reflexivity|]. split; [reflexivity|].
  split; [apply end_compilations_table|].
  intros hr min_size. split; [by eapply not_initialized_not_printed|].
  intros line Hl.
  erewrite print_all_by_size_enabled by reflexivity.
  rewrite !elem_of_app. apply elem_of_app in Hl as [Hl|Hl]; [auto|]. do 5 right. by left.
Qed.

(** X15. The report of a registry that was initialized and holds no record
    yet: the title, the legend, the cutoff line when [min_size] is
    positive, the header, the count "(0/0)" when [min_size] is positive,
    and "No entries."; the sorting routine is not run. *)
Theorem report_of_empty_registry (g0 : Statistic) hr min_size :
  print_all_by_size QuickSort_sort (initialize g0) hr min_size =
    [ TextLine "Compilation memory statistics"; TextLine "" ] ++ print_legend ++
    [ TextLine "" ] ++
    (if min_size >? 0 then
       [ TextLine (" (cutoff: " +:+ pretty min_size +:+ " bytes)") ]
     else []) ++
    [ TextLine "" ] ++ print_header ++
    (if min_size >? 0 then [ TextLine "(0/0)" ] else []) ++
    [ TextLine "No entries." ].
Proof.
  erewrite print_all_by_size_enabled by reflexivity.
  rewrite print_table_eq. rewrite snapshot_filter.
  change (iterate_all ∅) with (@nil MemStatEntry.t).
  destruct (min_size >? 0); reflexivity.
Qed.

(** X16. With statistics enabled, the report says "No entries." exactly
    when no record reaches [min_size], and then it has no row; and when
    [min_size] is positive it carries the count line made of the number of
    records that reach [min_size] and the number of all records. This holds
    for any sorting routine. *)
Theorem report_no_entries_iff g (t : MemStatTable) hr min_size :
  _enabled g = true -> _the_table g = Some t ->
  let out := print_all_by_size QuickSort_sort g hr min_size in
  (TextLine "No entries." ∈ out <-> snapshot t min_size = []) /\
  (snapshot t min_size = [] -> printed_entries out = []) /\
  (0 < min_size ->
   TextLine ("(" +:+ pretty (Z.of_nat (length (snapshot t min_size))) +:+ "/"
                 +:+ pretty (number_of_entries t) +:+ ")") ∈ out).
Proof.
  intros He Ht out. subst out.
  split; [|split].
  - rewrite (print_all_by_size_enabled QuickSort_sort g t) by done.
    rewrite print_table_eq. split.
    + intros Hin. rewrite !elem_of_app in Hin.
      destruct Hin as [Hin|[Hin|[Hin|[Hin|[Hin|[Hin|[Hin|Hin]]]]]]].
      * apply list_elem_of_In in Hin. cbn in Hin. intuition discriminate.
      * apply list_elem_of_In in Hin. cbn in Hin. intuition discriminate.
      * apply list_elem_of_In in Hin. cbn in Hin. intuition discriminate.
      * destruct (min_size >? 0); apply list_elem_of_In in Hin; cbn in Hin;
          intuition discriminate.
      * apply list_elem_of_In in Hin. cbn in Hin. intuition discriminate.
      * apply list_elem_of_In in Hin. cbn in Hin. intuition discriminate.
      * destruct (min_size >? 0); apply list_elem_of_In in Hin; cbn in Hin;
          intuition discriminate.
      * destruct (Z.gtb_spec (Z.of_nat (length (snapshot t min_size))) 0) as [|Hz].
        -- apply list_elem_of_fmap in Hin as (e & Heq & _). discriminate.
        -- destruct (snapshot t min_size); [reflexivity|]. cbn in Hz. lia.
    + intros ->. rewrite !elem_of_app. do 7 right. cbn. by left.
  - intros Hs. rewrite (proj1 (printed_entries_report QuickSort_sort g t hr min_size He Ht)).
    by rewrite Hs.
  - intros Hmin. rewrite (print_all_by_size_enabled QuickSort_sort g t) by done.
    rewrite print_table_eq. rewrite !elem_of_app. do 6 right. left.
    destruct (Z.gtb_spec min_size 0); [by left|lia].
Qed.

End ReportLifecycle.

Lemma statistics_lifecycle_witness :
  let e := mkCompilerEnv true (Some (Some compiler_c1)) None in
  let a := run_accounts (start ArenaStatCounter_new) [mkAccountCall 1000 tag_ra e] in
  let l := [(mkEndEnv compiler_c1 (mkFullMethodName 4 5 6) false 0 1, a)] in
  exists g,
    end_compilations (initialize Statistic_init) l = Some g /\
    TextLine "Legend:" ∈ print_legend ++ print_header /\
    TextLine "Legend:" ∈ print_all_by_size insertion_sort g false 0.
Proof.
  intros e a l.
  destruct (statistics_lifecycle insertion_sort Statistic_init l)
    as (_ & t & g & _ & _ & Hg & Hout).
  exists g. split; [exact Hg|].
  assert (Hl : TextLine "Legend:" ∈ print_legend ++ print_header) by (by left).
  split; [exact Hl|]. exact (proj2 (Hout false 0) _ Hl).
Defined.

Lemma report_no_entries_iff_witness :
  let t := run_adds ∅ [mkAddCall (mkFullMethodName 1 2 3) compiler_c2 5000 4000 1000 321 10 1] in
  let g := mkStatistic true (Some t) in
  let out := print_all_by_size insertion_sort g false 6000 in
  (_enabled g = true /\ _the_table g = Some t /\ snapshot t 6000 = [] /\ 0 < 6000) /\
  TextLine "No entries." ∈ out /\
  printed_entries out = [] /\
  TextLine "(0/1)" ∈ out.
Proof.
  intros t g out.
  assert (Hs : snapshot t 6000 = []) by (vm_compute; reflexivity).
  assert (Hm : 0 < 6000) by lia.
  split; [auto|].
  destruct (report_no_entries_iff insertion_sort g t false 6000 eq_refl eq_refl)
    as (H1 & H2 & H3).
  split; [by apply H1|]. split; [by apply H2|].
  exact (H3 Hm).
Defined.
